(** * Legal Document Simplifier: the analysis pipeline of [web.py]

    A shallow embedding of [LegalDocumentSimplifier] (classifier, section
    segmenter, clause rewriter, risk scanner, summary generator and the
    per-document run) together with the properties of its specification.

    A Python [str] is modelled as the [string] of the bytes of its UTF-8
    encoding. White space is all of what [str.isspace] accepts, in one, two
    or three bytes. Letter case is modelled on the letters A to Z: [lower]
    maps [A-Z] to [a-z], and so does the case folding of [re.IGNORECASE];
    a word character of the [re] module is an ASCII letter, a digit or the
    underscore. Where a property depends on the last two, it is stated for
    texts of ASCII characters. *)

From Stdlib Require Import Strings.String Strings.Ascii Lists.List Bool.Bool
  Arith.Arith Lia FunInd.
Import ListNotations.
Local Open Scope string_scope.
Local Open Scope bool_scope.

(* ================================================================= *)
(** ** Python string primitives *)

Module PyStr.

Definition newline : ascii := "010"%char.
Definition dquote : ascii := "034"%char.
Definition space : ascii := " "%char.

(** The string made of one line feed. *)
Definition nl : string := String newline EmptyString.

Definition code_in (lo hi : nat) (c : ascii) : bool :=
  Nat.leb lo (nat_of_ascii c) && Nat.leb (nat_of_ascii c) hi.

Definition is_upper_char (c : ascii) : bool := code_in 65 90 c.
Definition is_lower_char (c : ascii) : bool := code_in 97 122 c.
Definition is_digit_char (c : ascii) : bool := code_in 48 57 c.

(** A byte below code 128: an ASCII character. *)
Definition low (c : ascii) : bool := Nat.ltb (nat_of_ascii c) 128.

(** [str.isspace] on a character below code 128: tab, line feed, vertical
    tab, form feed, carriage return, the four separators 28-31 and the
    space. *)
Definition is_space (c : ascii) : bool :=
  code_in 9 13 c || code_in 28 31 c || (c =? space)%char.

(** The white space above code 128, in UTF-8: U+0085 and U+00A0 take two
    bytes; U+1680, U+2000 to U+200A, U+2028, U+2029, U+202F, U+205F and
    U+3000 take three. *)
Definition is_space2 (c d : ascii) : bool :=
  code_in 194 194 c && (code_in 133 133 d || code_in 160 160 d).

Definition is_space3 (c d e : ascii) : bool :=
  code_in 225 225 c && code_in 154 154 d && code_in 128 128 e
  || code_in 226 226 c && code_in 128 128 d
     && (code_in 128 138 e || code_in 168 169 e || code_in 175 175 e)
  || code_in 226 226 c && code_in 129 129 d && code_in 159 159 e
  || code_in 227 227 c && code_in 128 128 d && code_in 128 128 e.

(** The no-break space U+00A0 and the ideographic space U+3000. *)
Definition no_break_space : string :=
  String "194"%char (String "160"%char EmptyString).

Definition ideographic_space : string :=
  String "227"%char (String "128"%char (String "128"%char EmptyString)).

(** Number of bytes of the white-space character a text starts with, 0
    when it starts with something else. *)
Definition space_width (s : string) : nat :=
  match s with
  | String c s1 =>
      if is_space c then 1
      else match s1 with
           | String d s2 =>
               if is_space2 c d then 2
               else match s2 with
                    | String e _ => if is_space3 c d e then 3 else 0
                    | EmptyString => 0
                    end
           | EmptyString => 0
           end
  | EmptyString => 0
  end.

(** The text is white space from end to end (the empty text included). *)
Fixpoint all_space (s : string) : bool :=
  match s with
  | EmptyString => true
  | String c s1 =>
      if is_space c then all_space s1
      else match s1 with
           | String d s2 =>
               if is_space2 c d then all_space s2
               else match s2 with
                    | String e s3 => is_space3 c d e && all_space s3
                    | EmptyString => false
                    end
           | EmptyString => false
           end
  end.

(** [\w] of the [re] module. *)
Definition is_word_char (c : ascii) : bool :=
  is_upper_char c || is_lower_char c || is_digit_char c || (c =? "_")%char.

Definition lower_char (c : ascii) : ascii :=
  if is_upper_char c then ascii_of_nat (nat_of_ascii c + 32) else c.

(** [s.lower()], as far as the letters A to Z go: the classes look for
    ASCII keywords in the lowercased text, and no other character is turned
    into a letter of one of these keywords. *)
Fixpoint lower (s : string) : string :=
  match s with
  | EmptyString => EmptyString
  | String c s' => String (lower_char c) (lower s')
  end.

(** The text is made of ASCII characters only. *)
Definition is_ascii (s : string) : bool :=
  forallb low (list_ascii_of_string s).

(** Truth value of a string: [bool(s)]. *)
Definition nonempty (s : string) : bool :=
  match s with EmptyString => false | String _ _ => true end.

(** [s.lstrip()]: the white-space characters at the start are dropped. *)
Fixpoint lstrip (s : string) : string :=
  match s with
  | EmptyString => EmptyString
  | String c s1 =>
      if is_space c then lstrip s1
      else match s1 with
           | String d s2 =>
               if is_space2 c d then lstrip s2
               else match s2 with
                    | String e s3 => if is_space3 c d e then lstrip s3 else s
                    | EmptyString => s
                    end
           | EmptyString => s
           end
  end.

(** [s.rstrip()]: the text up to the point from which only white space
    follows. [s.strip()] does both. *)
Fixpoint rstrip (s : string) : string :=
  match s with
  | EmptyString => EmptyString
  | String c s' =>
      if nonempty (lstrip s) then String c (rstrip s') else EmptyString
  end.

Definition strip (s : string) : string := rstrip (lstrip s).

(** [s.startswith(p)], with and without letter case. *)
Fixpoint starts_with (p s : string) : bool :=
  match p, s with
  | EmptyString, _ => true
  | String _ _, EmptyString => false
  | String a p', String b s' => (a =? b)%char && starts_with p' s'
  end.

Fixpoint starts_with_ci (p s : string) : bool :=
  match p, s with
  | EmptyString, _ => true
  | String _ _, EmptyString => false
  | String a p', String b s' =>
      (lower_char a =? lower_char b)%char && starts_with_ci p' s'
  end.

(** [p in s]. *)
Fixpoint contains (p s : string) : bool :=
  starts_with p s ||
  match s with
  | EmptyString => false
  | String _ s' => contains p s'
  end.

(** [s.split(sep)] for a one-character separator: never an empty list. *)
Fixpoint split_on (sep : ascii) (s : string) : list string :=
  match s with
  | EmptyString => [EmptyString]
  | String c s' =>
      if (c =? sep)%char then EmptyString :: split_on sep s'
      else match split_on sep s' with
           | [] => [String c EmptyString]
           | l :: ls => String c l :: ls
           end
  end.

(** [s.split()]: the maximal runs of characters that are not white space.
    [skip] counts the bytes still to pass of the white-space character the
    scan is in. *)
Fixpoint split_ws_from (skip : nat) (s : string) : list string :=
  match s with
  | EmptyString => []
  | String c s' =>
      match skip with
      | S k => split_ws_from k s'
      | O =>
          match space_width s with
          | S k => split_ws_from k s'
          | O =>
              if nonempty s' && Nat.eqb (space_width s') 0 then
                match split_ws_from 0 s' with
                | [] => [String c EmptyString]
                | w :: ws => String c w :: ws
                end
              else String c EmptyString :: split_ws_from 0 s'
          end
      end
  end.

Definition split_ws (s : string) : list string := split_ws_from 0 s.

(** [sep.join(ls)]. *)
Definition join (sep : string) (ls : list string) : string :=
  String.concat sep ls.

(** [s[n:]]. *)
Fixpoint drop (n : nat) (s : string) : string :=
  match n, s with
  | O, _ => s
  | S _, EmptyString => EmptyString
  | S k, String _ s' => drop k s'
  end.

(** [c in s] for one character. *)
Fixpoint mem_char (c : ascii) (s : string) : bool :=
  match s with
  | EmptyString => false
  | String d s' => (d =? c)%char || mem_char c s'
  end.

(** [any(term in s for term in terms)]. *)
Definition any_in (terms : list string) (s : string) : bool :=
  existsb (fun term => contains term s) terms.

End PyStr.

Import PyStr.

(* ================================================================= *)
(** ** The document classifier *)

Module Classifier.

Definition identify_document_type (text : string) : string :=
  let text_lower := lower text in
  if any_in ["lease"; "rental"; "tenant"; "landlord"] text_lower then
    "Rental Agreement"
  else if any_in ["loan"; "borrower"; "lender"; "interest rate"; "repayment"]
            text_lower then
    "Loan Agreement"
  else if any_in ["terms of service"; "terms and conditions";
                  "user agreement"] text_lower then
    "Terms of Service"
  else if any_in ["employment"; "employee"; "employer"; "non-compete"]
            text_lower then
    "Employment Contract"
  else if any_in ["nda"; "non-disclosure"; "confidentiality"] text_lower then
    "Non-Disclosure Agreement"
  else if any_in ["purchase"; "sale"; "buyer"; "seller"] text_lower then
    "Purchase Agreement"
  else
    "Legal Document".

(** The specification's reading: an ordered list of (keyword set, label)
    rules, the first rule with a keyword in the text gives the label. *)
Definition rules : list (list string * string) :=
  [ (["lease"; "rental"; "tenant"; "landlord"], "Rental Agreement");
    (["loan"; "borrower"; "lender"; "interest rate"; "repayment"],
     "Loan Agreement");
    (["terms of service"; "terms and conditions"; "user agreement"],
     "Terms of Service");
    (["employment"; "employee"; "employer"; "non-compete"],
     "Employment Contract");
    (["nda"; "non-disclosure"; "confidentiality"],
     "Non-Disclosure Agreement");
    (["purchase"; "sale"; "buyer"; "seller"], "Purchase Agreement") ].

Definition fallback : string := "Legal Document".

Fixpoint first_match (rs : list (list string * string)) (s : string)
  : string :=
  match rs with
  | [] => fallback
  | (keywords, label) :: rs' =>
      if any_in keywords s then label else first_match rs' s
  end.

Definition document_types : list string :=
  map snd rules ++ [fallback].

(** *** Vocabulary of the specification *)

(** [kw] occurs in [text] up to letter case. *)
Definition occurs_ci (kw text : string) : Prop :=
  exists pre w post, text = pre ++ w ++ post /\ lower w = kw.

(** [kw] stands somewhere in [s]. *)
Definition occurs (kw s : string) : Prop :=
  exists pre post, s = pre ++ kw ++ post.

(** Some keyword of the set stands somewhere in [s]. *)
Definition any_occurs (keywords : list string) (s : string) : Prop :=
  exists kw, In kw keywords /\ occurs kw s.

(** The specification's rule: [label] is the label of the first rule of
    the list with a keyword in [s], and the fallback when no rule has
    one. *)
Inductive first_rule
  : list (list string * string) -> string -> string -> Prop :=
| fr_fallback (s : string) : first_rule [] s fallback
| fr_match (keywords : list string) (label : string)
           (rs : list (list string * string)) (s : string) :
    any_occurs keywords s ->
    first_rule ((keywords, label) :: rs) s label
| fr_next (keywords : list string) (label : string)
          (rs : list (list string * string)) (s other : string) :
    ~ any_occurs keywords s ->
    first_rule rs s other ->
    first_rule ((keywords, label) :: rs) s other.

(** Two characters that are the same, or the capital and the small form of
    one of the letters A to Z. *)
Definition char_case_variant (c d : ascii) : Prop :=
  d = c \/
  (is_upper_char c = true /\ d = lower_char c) \/
  (is_upper_char d = true /\ c = lower_char d).

(** Two texts that differ at most by the case of their letters A to Z. *)
Inductive case_variant : string -> string -> Prop :=
| cv_empty : case_variant "" ""
| cv_char (c d : ascii) (s t : string) :
    char_case_variant c d -> case_variant s t ->
    case_variant (String c s) (String d t).

(** The ligature U+FB01 (fi), as its three UTF-8 bytes. *)
Definition ligature_fi : string :=
  String "239"%char (String "172"%char (String "129"%char EmptyString)).

(** [t] is what [s.upper()] gives, for texts made of ASCII characters and
    of the ligature U+FB01, which [str.upper()] writes as the two letters
    FI. *)
Inductive uppercased : string -> string -> Prop :=
| up_empty : uppercased "" ""
| up_small (c : ascii) (s t : string) :
    is_lower_char c = true -> uppercased s t ->
    uppercased (String c s) (String (ascii_of_nat (nat_of_ascii c - 32)) t)
| up_other (c : ascii) (s t : string) :
    Nat.ltb (nat_of_ascii c) 128 = true -> is_lower_char c = false ->
    uppercased s t ->
    uppercased (String c s) (String c t)
| up_ligature (s t : string) :
    uppercased s t -> uppercased (ligature_fi ++ s) ("FI" ++ t).

(** A text with the ligature and its uppercased form. *)
Definition with_ligature : string :=
  "con" ++ ligature_fi ++ "dentiality agreement".

Definition with_ligature_upper : string := "CONFIDENTIALITY AGREEMENT".

End Classifier.

(* ================================================================= *)
(** ** Python dictionaries from strings to strings

    A [dict] keeps its keys in insertion order, and assigning to a key that
    is present replaces the value where the key stands. *)

Module PyDict.

Definition dict : Type := list (string * string).

(** [d[k] = v]. *)
Fixpoint set (k v : string) (d : dict) : dict :=
  match d with
  | [] => [(k, v)]
  | (k', v') :: d' =>
      if (k' =? k)%string then (k', v) :: d' else (k', v') :: set k v d'
  end.

(** [d.get(k)]. *)
Fixpoint get (k : string) (d : dict) : option string :=
  match d with
  | [] => None
  | (k', v') :: d' => if (k' =? k)%string then Some v' else get k d'
  end.

Definition keys (d : dict) : list string := map fst d.

End PyDict.

Import PyDict.

(* ================================================================= *)
(** ** The section segmenter *)

Module Segmenter.

Definition section_headings : list string :=
  [ "parties"; "recitals"; "terms"; "definitions"; "obligations";
    "payment"; "confidentiality"; "term and termination"; "warranties";
    "limitation of liability"; "indemnification"; "governing law";
    "dispute resolution"; "miscellaneous"; "notices"; "signatures" ].

(** The loop's variables. *)
Record state : Type := mkState {
  sections : dict;
  current_section : string;
  section_content : list string
}.

(** The inner loop over [section_headings], on the stripped line. *)
Definition is_heading (line_stripped : string) : bool :=
  let line_lower := lower line_stripped in
  existsb (fun heading =>
             contains heading line_lower &&
             (List.length (split_ws line_stripped) <? 8)%nat)
          section_headings.

(** [if section_content and current_section:
       sections[current_section] = '\n'.join(section_content)]. *)
Definition flush (st : state) : dict :=
  match section_content st with
  | [] => sections st
  | _ :: _ =>
      if nonempty (current_section st) then
        set (current_section st) (join nl (section_content st)) (sections st)
      else sections st
  end.

(** One iteration of [for line in lines]. *)
Definition step (st : state) (line : string) : state :=
  let line_stripped := strip line in
  if negb (nonempty line_stripped) then st
  else if is_heading line_stripped then
    mkState (flush st) line_stripped []
  else
    mkState (sections st) (current_section st)
            (section_content st ++ [line_stripped]).

Definition initial : state := mkState [] "Introduction" [].

Definition identify_key_sections (text : string) : dict :=
  let lines := split_on newline text in
  flush (fold_left step lines initial).

(** *** Vocabulary of the specification *)

(** The lines the segmenter looks at: stripped, blank ones skipped. *)
Definition visible_lines (text : string) : list string :=
  filter nonempty (map strip (split_on newline text)).

(** The non-blank lines that are not detected as headings. *)
Definition content_lines (text : string) : list string :=
  filter (fun l => negb (is_heading l)) (visible_lines text).

(** The detected heading lines. *)
Definition heading_lines (text : string) : list string :=
  filter is_heading (visible_lines text).

(** The body lines stored in a section map, section after section. *)
Definition body_lines (d : dict) : list string :=
  flat_map (fun kv => split_on newline (snd kv)) d.

(** The sections in the order the text opens them, each with the lines
    that follow its heading; a section without lines is left out. *)
Definition close (cur : string) (buf : list string)
  : list (string * list string) :=
  match buf with
  | [] => []
  | _ :: _ => if nonempty cur then [(cur, buf)] else []
  end.

Fixpoint segments (cur : string) (buf : list string) (ls : list string)
  : list (string * list string) :=
  match ls with
  | [] => close cur buf
  | l :: ls' =>
      if is_heading l then close cur buf ++ segments l [] ls'
      else segments cur (buf ++ [l]) ls'
  end.

Definition sections_of (text : string) : list (string * list string) :=
  segments "Introduction" [] (visible_lines text).

(** The body of the last section of [segs] opened under key [k]. *)
Fixpoint last_body (k : string) (segs : list (string * list string))
  : option (list string) :=
  match segs with
  | [] => None
  | (k', b) :: segs' =>
      match last_body k segs' with
      | Some b' => Some b'
      | None => if (k' =? k)%string then Some b else None
      end
  end.

(** Writing one section into the map, as the flush does. *)
Definition store (d : dict) (seg : string * list string) : dict :=
  set (fst seg) (join nl (snd seg)) d.



(** A section with a body, made of lines without line
    feed. *)
Definition well_formed (seg : string * list string) : Prop :=
  snd seg <> [] /\ Forall (fun l => mem_char newline l = false) (snd seg).

(** Sample texts: the heading "Parties" twice, each time with one body
    line; no heading, a blank line and padded lines; two different
    headings. *)
Definition repeated_heading : string :=
  "Parties" ++ nl ++ "first body" ++ nl ++ "Parties" ++ nl ++ "second body".

(** A line the loop skips: nothing is left of it when stripped. *)
Definition blank_line (l : string) : bool :=
  negb (nonempty (strip l)) && negb (mem_char newline l).

(** A heading with white space around it, followed by one body line. *)
Definition padded_heading : string :=
  "  Parties  " ++ nl ++ "Ann and Bob".

Definition blank_and_padded : string :=
  "  Ann lets a flat to Bob. " ++ nl ++ nl ++ "Rent is due monthly.".

Definition two_sections : string :=
  "Lease of a flat" ++ nl ++ "PARTIES" ++ nl ++ "  Ann and Bob  " ++ nl ++ nl
  ++ "Payment" ++ nl ++ "Monthly." ++ nl ++ "In advance.".

End Segmenter.

(* ================================================================= *)
(** ** The regular expressions of the class

    The class calls [re.sub] with a literal pattern, bare or between two
    [\b], [re.split] with two fixed patterns, and [re.search] with
    alternations of literals and of [a.*b]. Each is modelled by the scan
    the [re] module performs for that shape of pattern. *)

Module Regex.

Definition is_word (o : option ascii) : bool :=
  match o with Some c => is_word_char c | None => false end.

(** [\b] holds between [before] and [after]. *)
Definition word_boundary (before after : option ascii) : bool :=
  xorb (is_word before) (is_word after).

(** [\b] at offset [n] of [s], where [prev] stands before [s]. *)
Definition boundary_at (prev : option ascii) (s : string) (n : nat) : bool :=
  word_boundary (match n with O => prev | S k => String.get k s end)
                (String.get n s).

(** The pattern [pat] (or [\bpat\b] when [wb]) matches at the start of
    [s], ignoring letter case. *)
Definition match_at (wb : bool) (pat : string) (prev : option ascii)
           (s : string) : bool :=
  starts_with_ci pat s &&
  (negb wb ||
   (boundary_at prev s 0 && boundary_at prev s (String.length pat))).

(** [re.sub(pat, repl, s, flags=re.IGNORECASE)] for a non-empty literal
    [pat]: matches are taken leftmost, one after the end of the other;
    [skip] counts the characters of the current match still to pass. *)
Fixpoint sub_from (wb : bool) (pat repl : string) (prev : option ascii)
         (skip : nat) (s : string) : string :=
  match s with
  | EmptyString => EmptyString
  | String c s' =>
      match skip with
      | S k => sub_from wb pat repl (Some c) k s'
      | O =>
          if match_at wb pat prev s then
            repl ++ sub_from wb pat repl (Some c) (String.length pat - 1) s'
          else String c (sub_from wb pat repl (Some c) 0 s')
      end
  end.

Definition sub_word (term repl s : string) : string :=
  sub_from true term repl None 0 s.

Definition sub_literal (pat repl s : string) : string :=
  sub_from false pat repl None 0 s.

(** Some match of [pat] (or [\bpat\b]) starts in [s]. *)
Fixpoint occurs_from (wb : bool) (pat : string) (prev : option ascii)
         (s : string) : bool :=
  match s with
  | EmptyString => false
  | String c s' => match_at wb pat prev s || occurs_from wb pat (Some c) s'
  end.

Definition is_terminator (o : option ascii) : bool :=
  match o with
  | Some c => (c =? ".")%char || (c =? "!")%char || (c =? "?")%char
  | None => false
  end.

(** [re.split(r'(?<=[.!?]) +', s)]: [in_sep] says that the scan is inside
    a run of separating spaces. *)
Fixpoint split_sentences_from (prev : option ascii) (in_sep : bool)
         (s : string) : list string :=
  match s with
  | EmptyString => [EmptyString]
  | String c s' =>
      if (c =? space)%char && in_sep then
        split_sentences_from (Some c) true s'
      else if (c =? space)%char && is_terminator prev then
        EmptyString :: split_sentences_from (Some c) true s'
      else
        match split_sentences_from (Some c) false s' with
        | [] => [String c EmptyString]
        | p :: ps => String c p :: ps
        end
  end.

Definition split_sentences (s : string) : list string :=
  split_sentences_from None false s.

Definition is_clause_mark (c : ascii) : bool :=
  (c =? ",")%char || (c =? ";")%char || (c =? ":")%char.

(** [re.split(r', |; |: ', s)]. *)
Fixpoint split_clauses (s : string) : list string :=
  match s with
  | EmptyString => [EmptyString]
  | String c s' =>
      let keep :=
        match split_clauses s' with
        | [] => [String c EmptyString]
        | p :: ps => String c p :: ps
        end in
      match s' with
      | String d s'' =>
          if is_clause_mark c && (d =? space)%char then
            EmptyString :: split_clauses s''
          else keep
      | EmptyString => keep
      end
  end.

(** One alternative of a searched pattern: [a] or [a.*b]. *)
Inductive branch : Type :=
| Lit (a : string)
| Gap (a b : string).

(** [b1|b2|...]. *)
Definition regex : Type := list branch.

Definition prefix_of (ci : bool) (p s : string) : bool :=
  if ci then starts_with_ci p s else starts_with p s.

(** [.*b] matches at the start of [s]: the dot stops at a line feed. *)
Fixpoint gap_then (ci : bool) (b s : string) : bool :=
  prefix_of ci b s ||
  match s with
  | EmptyString => false
  | String c s' => negb (c =? newline)%char && gap_then ci b s'
  end.

Definition branch_at (ci : bool) (br : branch) (s : string) : bool :=
  match br with
  | Lit a => prefix_of ci a s
  | Gap a b => prefix_of ci a s && gap_then ci b (drop (String.length a) s)
  end.

Fixpoint search_branch (ci : bool) (br : branch) (s : string) : bool :=
  branch_at ci br s ||
  match s with
  | EmptyString => false
  | String _ s' => search_branch ci br s'
  end.

(** [re.search(r, s)] as a truth value; [ci] is [re.IGNORECASE]. *)
Definition search (ci : bool) (r : regex) (s : string) : bool :=
  existsb (fun br => search_branch ci br s) r.

End Regex.

Import Regex.

(* ================================================================= *)
(** ** The clause rewriter *)

Module Rewriter.

Definition quote : string := String dquote EmptyString.

(** [self.legal_terms], in the dictionary's order. *)
Definition legal_terms : list (string * string) :=
  [ ("hereinafter", "from now on");
    ("heretofore", "until now");
    ("wherein", "in which");
    ("whereby", "by which");
    ("hereby", "by this");
    ("herein", "in this document");
    ("hereof", "of this");
    ("hereto", "to this");
    ("pursuant to", "according to");
    ("notwithstanding", "despite");
    ("indemnify", "compensate for harm or loss");
    ("liable", "legally responsible");
    ("obligation", "duty");
    ("covenant", "formal agreement");
    ("warranty", "promise or guarantee");
    ("jurisdiction", "area of legal authority");
    ("arbitration", "resolving disputes outside of court");
    ("litigation", "taking legal action through court");
    ("force majeure", "unavoidable circumstances");
    ("confidentiality", "keeping information private") ].

Definition span_open : string :=
  "<span class=" ++ quote ++ "legal-term" ++ quote ++ ">".

(** The replacement text of one term. *)
Definition annotation (term explanation : string) : string :=
  span_open ++ term ++ "</span> (" ++ explanation ++ ")".

Definition patterns : list (string * string) :=
  [ ("notwithstanding anything to the contrary contained herein",
     "despite anything else in this document");
    ("in the event that", "if");
    ("for the purpose of", "to");
    ("prior to", "before");
    ("subsequent to", "after");
    ("pursuant to", "under");
    ("without limiting the generality of the foregoing",
     "including but not limited to");
    ("set forth herein", "described in this document");
    ("shall be deemed to be", "will be considered");
    ("is hereby granted", "is given") ].

(** The first loop: every term of [legal_terms] annotated in turn. *)
Definition annotate_terms (text : string) : string :=
  fold_left
    (fun simplified_text entry =>
       sub_word (fst entry) (annotation (fst entry) (snd entry))
                simplified_text)
    legal_terms text.

(** The second loop: the boilerplate phrases. *)
Definition replace_patterns (text : string) : string :=
  fold_left
    (fun simplified_text entry =>
       sub_literal (fst entry) (snd entry) simplified_text)
    patterns text.

(** The body of the third loop, for one sentence. *)
Definition break_sentence (sentence : string) : list string :=
  if (25 <? List.length (split_ws sentence))%nat then
    let clauses := split_clauses sentence in
    if (1 <? List.length clauses)%nat then clauses else [sentence]
  else [sentence].

Definition simplify_legal_text (text : string) : string :=
  if negb (nonempty (strip text)) then EmptyString
  else
    let simplified_text := replace_patterns (annotate_terms text) in
    let sentences := split_sentences simplified_text in
    let simplified_sentences := flat_map break_sentence sentences in
    join ". " simplified_sentences.

(** *** Vocabulary of the specification *)

(** Number of places of [s] where [p] starts. *)
Fixpoint count_occurrences (p s : string) : nat :=
  (if starts_with p s then 1 else 0) +
  match s with
  | EmptyString => 0
  | String _ s' => count_occurrences p s'
  end.

(** Number of jargon annotations in a text. *)
Definition annotation_count (s : string) : nat :=
  count_occurrences span_open s.

(** Some term of [legal_terms] occurs in [s] as [re.sub] would find it. *)
Definition has_jargon (s : string) : bool :=
  existsb (fun entry => occurs_from true (fst entry) None s) legal_terms.

End Rewriter.

(* ================================================================= *)
(** ** The risk scanner *)

Module RiskScanner.

Record risk : Type := mkRisk {
  description : string;
  level : string;
  examples : list string
}.

Definition risk_patterns : list (regex * string * string) :=
  [ ([Lit "indemnify"; Lit "hold harmless"],
     "You might be responsible for paying for damages or losses", "high");
    ([Gap "liability" "limit"; Gap "limit" "liability"],
     "There may be limits on how much you can claim if something goes wrong",
     "medium");
    ([Lit "confidentiality"; Lit "non-disclosure"],
     "You may be required to keep information secret", "medium");
    ([Gap "termination" "without cause"; Gap "termination" "at will"],
     "The agreement might be ended without a specific reason", "medium");
    ([Gap "arbitration" "dispute"; Gap "dispute" "arbitration"],
     "You might not be able to sue in court and must use arbitration instead",
     "medium");
    ([Gap "governing law" "jurisdiction"],
     "Disputes might be handled in a location that's not convenient for you",
     "low");
    ([Lit "automatic renewal"; Lit "evergreen"],
     "The agreement might renew automatically unless you cancel it",
     "medium");
    ([Lit "non-compete"; Lit "non-solicit"],
     "You might be restricted from working with competitors or clients",
     "high");
    ([Lit "liquidated damages"],
     "You might have to pay a predetermined amount if you breach the agreement",
     "high");
    ([Gap "assignment" "without consent"],
     "The other party might transfer the agreement without your permission",
     "medium") ].

(** The loop of [find_example_clauses], with its [break]. *)
Fixpoint collect_examples (pattern : regex) (sentences : list string)
         (examples : list string) : list string :=
  match sentences with
  | [] => examples
  | sentence :: rest =>
      if search true pattern sentence then
        let examples' := (examples ++ [strip sentence])%list in
        if (3 <=? List.length examples')%nat then examples'
        else collect_examples pattern rest examples'
      else collect_examples pattern rest examples
  end.

Definition find_example_clauses (text : string) (pattern : regex)
  : list string :=
  collect_examples pattern (split_sentences text) [].

Definition identify_risks (text : string) : list risk :=
  let text_lower := lower text in
  fold_left
    (fun risks rule =>
       let '(pattern, description, risk_level) := rule in
       if search false pattern text_lower then
         (risks ++ [mkRisk description risk_level
                           (find_example_clauses text pattern)])%list
       else risks)
    risk_patterns [].

(** [e] occurs verbatim in [t]. *)
Definition substring_of (e t : string) : Prop :=
  exists pre post, t = pre ++ e ++ post.

(** A finding as the specification wants it, for the text [text]. *)
Definition bounded_verbatim (text : string) (r : risk) : Prop :=
  List.length (examples r) <= 3 /\
  Forall (fun example => substring_of example text) (examples r).

End RiskScanner.

(* ================================================================= *)
(** ** The summary generator *)

Module Summary.

Import Rewriter.

(** The bullet of the section list, U+2022, as its three UTF-8 bytes. *)
Definition bullet : string :=
  String "226"%char (String "128"%char (String "162"%char EmptyString)).

Definition checklist_header : string :=
  nl ++ "Key things to pay attention to:" ++ nl.

Section WithShorten.

(** [textwrap.shorten(_, width=150, placeholder='...')], a function of
    Python's standard library. *)
Variable shorten : string -> string.

Definition section_bullets (sections : dict) (summary : string) : string :=
  fold_left
    (fun summary entry =>
       summary ++ bullet ++ " " ++ fst entry ++ ": " ++
       shorten (snd entry) ++ nl)
    sections summary.

Definition generate_summary (document_type : string) (sections : dict)
  : string :=
  let summary :=
    "This is a " ++ document_type ++
    " that includes the following key sections:" ++ nl ++ nl in
  let summary := section_bullets sections summary in
  let summary := summary ++ checklist_header in
  if (document_type =? "Rental Agreement")%string then
    summary
    ++ "- Duration of the lease and renewal terms" ++ nl
    ++ "- Rent amount, due date, and late fees" ++ nl
    ++ "- Security deposit details and return conditions" ++ nl
    ++ "- Maintenance responsibilities" ++ nl
    ++ "- Rules about pets, guests, and property use" ++ nl
  else if (document_type =? "Loan Agreement")%string then
    summary
    ++ "- Principal amount and interest rate" ++ nl
    ++ "- Repayment schedule and due dates" ++ nl
    ++ "- Prepayment penalties or options" ++ nl
    ++ "- Default conditions and consequences" ++ nl
    ++ "- Collateral requirements if any" ++ nl
  else if (document_type =? "Terms of Service")%string then
    summary
    ++ "- Your rights and responsibilities as a user" ++ nl
    ++ "- How your data is collected and used" ++ nl
    ++ "- Content ownership and intellectual property" ++ nl
    ++ "- Limitations of the service provider's liability" ++ nl
    ++ "- Dispute resolution process" ++ nl
  else summary.

(** What precedes the checklist: the opening and the section list. *)
Definition summary_head (document_type : string) (sections : dict)
  : string :=
  section_bullets sections
    ("This is a " ++ document_type ++
     " that includes the following key sections:" ++ nl ++ nl).

End WithShorten.

(** The types with a checklist of their own. *)
Definition has_checklist (document_type : string) : bool :=
  existsb (String.eqb document_type)
          ["Rental Agreement"; "Loan Agreement"; "Terms of Service"].

(** A summary has a checklist section when it carries the section's
    header. *)
Definition has_checklist_section (summary : string) : bool :=
  contains "Key things to pay attention to:" summary.

End Summary.

(* ================================================================= *)
(** ** The per-document run *)

Module Pipeline.

Import Classifier Segmenter Rewriter RiskScanner Summary.

(** A computation that returns or raises an exception, kept as the text
    [str(e)] gives for it. *)
Inductive outcome (A : Type) : Type :=
| Return (a : A)
| Raise (msg : string).
Arguments Return {A} a.
Arguments Raise {A} msg.

Definition bind {A B : Type} (m : outcome A) (k : A -> outcome B)
  : outcome B :=
  match m with
  | Return a => k a
  | Raise msg => Raise msg
  end.

Notation "x <- m ;; k" := (bind m (fun x => k))
  (at level 61, m at next level, right associativity).

(** [try: body except Exception as e: handler(str(e))]. *)
Definition try_except {A : Type} (body : outcome A) (handler : string -> A)
  : A :=
  match body with
  | Return a => a
  | Raise msg => handler msg
  end.

(** The uploaded file: its name and its bytes. *)
Record file : Type := mkFile {
  name : string;
  content : string
}.

(** The values held by the result dictionary. *)
Inductive value : Type :=
| VBool (b : bool)
| VStr (s : string)
| VSections (d : dict)
| VRisks (rs : list risk).

Definition result : Type := list (string * value).

(** [file.name.split('.')[-1].lower()]. *)
Definition file_type (f : file) : string :=
  lower (last (split_on "."%char (name f)) EmptyString).


Section WithLibraries.

(** The text layers of PyPDF2 and python-docx, the UTF-8 decoder and
    [textwrap.shorten]: library code, each may raise. *)
Variable extract_text_from_pdf : file -> outcome string.
Variable extract_text_from_docx : file -> outcome string.
Variable decode_utf8 : string -> outcome string.
Variable shorten : string -> string.

Definition extract_text_from_file (f : file) : outcome string :=
  let file_type := file_type f in
  if (file_type =? "pdf")%string then extract_text_from_pdf f
  else if (file_type =? "docx")%string then extract_text_from_docx f
  else if (file_type =? "txt")%string then decode_utf8 (content f)
  else Raise ("Unsupported file type: " ++ file_type).

Definition process_document (f : file) : result :=
  try_except
    (text <- extract_text_from_file f ;;
     let doc_type := identify_document_type text in
     let sections := identify_key_sections text in
     let simplified_text := simplify_legal_text text in
     let risks := identify_risks text in
     let summary := generate_summary shorten doc_type sections in
     Return [ ("success", VBool true);
              ("original_text", VStr text);
              ("simplified_text", VStr simplified_text);
              ("document_type", VStr doc_type);
              ("sections", VSections sections);
              ("risks", VRisks risks);
              ("summary", VStr summary);
              ("file_name", VStr (name f)) ])
    (fun e => [ ("success", VBool false); ("error", VStr e) ]).

End WithLibraries.

(** [result[k]], when the key is there. *)
Fixpoint field (k : string) (r : result) : option value :=
  match r with
  | [] => None
  | (k', v) :: r' => if (k' =? k)%string then Some v else field k r'
  end.

(** The dictionary the [except] branch returns. *)
Definition failure (msg : string) : result :=
  [ ("success", VBool false); ("error", VStr msg) ].

End Pipeline.

(* ================================================================= *)
(** ** The text extractors

    [extract_text_from_pdf] and [extract_text_from_docx] walk over the pages
    and the paragraphs the libraries found; they are modelled on the texts
    [page.extract_text()] and [paragraph.text] give, in their order. *)

Module Extractor.

Definition extract_text_from_pdf (pages : list string) : string :=
  fold_left (fun text page => text ++ page ++ nl) pages EmptyString.

Definition extract_text_from_docx (paragraphs : list string) : string :=
  fold_left (fun text paragraph => text ++ paragraph ++ nl) paragraphs
            EmptyString.

End Extractor.

(* ================================================================= *)
(** ** Vocabulary for further properties *)

Module Vocabulary.

Import Classifier Segmenter Rewriter RiskScanner.

(** Place of the first rule with a keyword in [s]; the number of rules when
    there is none. *)
Fixpoint match_index (rs : list (list string * string)) (s : string) : nat :=
  match rs with
  | [] => 0
  | (keywords, _) :: rs' =>
      if any_in keywords s then 0 else S (match_index rs' s)
  end.

(** Place of a string in a list; the length of the list when it is not
    there. *)
Fixpoint position (x : string) (l : list string) : nat :=
  match l with
  | [] => 0
  | y :: l' => if (y =? x)%string then 0 else S (position x l')
  end.

(** Rank of a type label in the classifier's order: 0 for "Rental
    Agreement", 6 for "Legal Document". *)
Definition priority (label : string) : nat := position label document_types.

(** The text with every line stripped and the blank lines left out. *)
Definition normal_form (text : string) : string :=
  join nl (visible_lines text).

(** Some boilerplate phrase of [patterns] occurs in [s]. *)
Definition has_boilerplate (s : string) : bool :=
  existsb (fun entry => occurs_from false (fst entry) None s) patterns.

(** A place where [split_sentences] cuts: a space that follows a full stop,
    an exclamation mark or a question mark. *)
Fixpoint has_boundary (prev : option ascii) (s : string) : bool :=
  match s with
  | EmptyString => false
  | String c s' =>
      ((c =? space)%char && is_terminator prev) || has_boundary (Some c) s'
  end.

(** The rule of [risk_patterns] seen as a finding for [text]. *)
Definition finding (text : string) (rule : regex * string * string) : risk :=
  let '(pattern, description, risk_level) := rule in
  mkRisk description risk_level (find_example_clauses text pattern).

(** The rule's pattern matches somewhere in the lowercased text. *)
Definition fires (text : string) (rule : regex * string * string) : bool :=
  let '(pattern, _, _) := rule in search false pattern (lower text).

(** The rule's pattern matches somewhere in [text], letter case ignored. *)
Definition fires_ci (text : string) (rule : regex * string * string) : bool :=
  let '(pattern, _, _) := rule in search true pattern text.

(** The opening sentence of a summary and the line of one section. *)
Definition opening (document_type : string) : string :=
  "This is a " ++ document_type
  ++ " that includes the following key sections:" ++ nl ++ nl.

Definition bullet_line (shorten : string -> string)
           (entry : string * string) : string :=
  Summary.bullet ++ " " ++ fst entry ++ ": " ++ shorten (snd entry) ++ nl.

End Vocabulary.

(* ================================================================= *)
(** ** The page: risk columns and download links *)

Module Page.

Import Rewriter RiskScanner.

(** The tests of the two risk columns of [main]:
    [risk["level"] in ["high", "medium"]] and [risk["level"] == "low"]. *)
Definition shown_left (r : risk) : bool :=
  existsb (String.eqb (level r)) ["high"; "medium"].

Definition shown_right (r : risk) : bool :=
  (level r =? "low")%string.

Definition left_column (risks : list risk) : list risk :=
  filter shown_left risks.

Definition right_column (risks : list risk) : list risk :=
  filter shown_right risks.

(** *** [base64.b64encode] *)

Definition alphabet : string :=
  "ABCDEFGHIJKLMNOPQRSTUVWXYZabcdefghijklmnopqrstuvwxyz0123456789+/".

Definition pad : ascii := "="%char.

(** The value of six bits, the most significant first. *)
Definition sextet (b5 b4 b3 b2 b1 b0 : bool) : nat :=
  (if b5 then 32 else 0) + (if b4 then 16 else 0) + (if b3 then 8 else 0)
  + (if b2 then 4 else 0) + (if b1 then 2 else 0) + (if b0 then 1 else 0).

Definition digit (n : nat) : ascii :=
  match String.get n alphabet with
  | Some c => c
  | None => pad
  end.

(** The groups of one, two and three bytes; [Ascii] lists the bits of a
    byte from the least significant one. *)
Definition encode1 (a : ascii) : string :=
  let '(Ascii a0 a1 a2 a3 a4 a5 a6 a7) := a in
  String (digit (sextet a7 a6 a5 a4 a3 a2))
    (String (digit (sextet a1 a0 false false false false))
       (String pad (String pad EmptyString))).

Definition encode2 (a b : ascii) : string :=
  let '(Ascii a0 a1 a2 a3 a4 a5 a6 a7) := a in
  let '(Ascii b0 b1 b2 b3 b4 b5 b6 b7) := b in
  String (digit (sextet a7 a6 a5 a4 a3 a2))
    (String (digit (sextet a1 a0 b7 b6 b5 b4))
       (String (digit (sextet b3 b2 b1 b0 false false))
          (String pad EmptyString))).

Definition encode3 (a b c : ascii) (rest : string) : string :=
  let '(Ascii a0 a1 a2 a3 a4 a5 a6 a7) := a in
  let '(Ascii b0 b1 b2 b3 b4 b5 b6 b7) := b in
  let '(Ascii c0 c1 c2 c3 c4 c5 c6 c7) := c in
  String (digit (sextet a7 a6 a5 a4 a3 a2))
    (String (digit (sextet a1 a0 b7 b6 b5 b4))
       (String (digit (sextet b3 b2 b1 b0 c7 c6))
          (String (digit (sextet c5 c4 c3 c2 c1 c0)) rest))).

Fixpoint b64encode (s : string) : string :=
  match s with
  | EmptyString => EmptyString
  | String a EmptyString => encode1 a
  | String a (String b EmptyString) => encode2 a b
  | String a (String b (String c rest)) => encode3 a b c (b64encode rest)
  end.

(** The inbox emoji U+1F4E5 as its four UTF-8 bytes. *)
Definition inbox : string :=
  String "240"%char (String "159"%char (String "147"%char
    (String "165"%char EmptyString))).

(** [create_download_link]; the texts are kept as their UTF-8 bytes, so
    [content.encode()] leaves [content] as it is. *)
Definition create_download_link (content filename text : string) : string :=
  let b64 := b64encode content in
  "<a href=" ++ quote ++ "data:file/txt;base64," ++ b64 ++ quote
  ++ " download=" ++ quote ++ filename ++ quote
  ++ " class=" ++ quote ++ "icon-button" ++ quote ++ ">"
  ++ inbox ++ " " ++ text ++ "</a>".

(** The characters a Base64 text is made of. *)
Definition is_b64_char (c : ascii) : bool :=
  mem_char c alphabet || (c =? pad)%char.

(** Reading a Base64 text back. *)
Fixpoint digit_index (c : ascii) (l : list ascii) (n : nat) : option nat :=
  match l with
  | [] => None
  | d :: l' => if (d =? c)%char then Some n else digit_index c l' (S n)
  end.

Definition value_of (c : ascii) : option nat :=
  digit_index c (list_ascii_of_string alphabet) 0.

(** A byte from its value. *)
Definition byte (n : nat) : ascii := ascii_of_nat n.

Fixpoint b64decode (s : string) : option string :=
  match s with
  | EmptyString => Some EmptyString
  | String c1 (String c2 (String c3 (String c4 rest))) =>
      match value_of c1, value_of c2 with
      | Some v1, Some v2 =>
          let a := byte (v1 * 4 + v2 / 16) in
          if (c3 =? pad)%char then
            if (c4 =? pad)%char && negb (nonempty rest)
            then Some (String a EmptyString) else None
          else
            match value_of c3 with
            | Some v3 =>
                let b := byte ((v2 mod 16) * 16 + v3 / 4) in
                if (c4 =? pad)%char then
                  if negb (nonempty rest)
                  then Some (String a (String b EmptyString)) else None
                else
                  match value_of c4, b64decode rest with
                  | Some v4, Some tail =>
                      Some (String a (String b
                              (String (byte ((v3 mod 4) * 64 + v4)) tail)))
                  | _, _ => None
                  end
            | None => None
            end
      | _, _ => None
      end
  | _ => None
  end.

End Page.

(* ================================================================= *)
(** ** Lower-case patterns *)

Module Patterns.

(** The literals of the pattern are written in lower case. *)
Definition branch_is_lower (br : branch) : bool :=
  match br with
  | Lit a => (lower a =? a)%string
  | Gap a b => (lower a =? a)%string && (lower b =? b)%string
  end.

Definition regex_is_lower (r : regex) : bool := forallb branch_is_lower r.

End Patterns.

(* ================================================================= *)
(** ** Patterns with solid ends *)

Module Ends.

(** The last character of a string that is not empty. *)
Fixpoint last_char (s : string) : option ascii :=
  match s with
  | EmptyString => None
  | String c EmptyString => Some c
  | String _ s' => last_char s'
  end.

(** An ASCII character that is not white space. *)
Definition plain (c : ascii) : bool := low c && negb (is_space c).

Definition solid (o : option ascii) : bool :=
  match o with Some c => plain c | None => false end.

(** The literal is not empty and has a plain character at each end. *)
Definition tight (a : string) : bool :=
  solid (String.get 0 a) && solid (last_char a).

Definition branch_is_tight (br : branch) : bool :=
  match br with
  | Lit a => tight a
  | Gap a b => tight a && tight b
  end.

Definition regex_is_tight (r : regex) : bool := forallb branch_is_tight r.

(** The first literal of the branch starts on a plain character. *)
Definition head_solid (br : branch) : bool :=
  match br with Lit a | Gap a _ => solid (String.get 0 a) end.

(** Some character of the text is plain. *)
Fixpoint has_plain (s : string) : bool :=
  match s with
  | EmptyString => false
  | String c s' => plain c || has_plain s'
  end.

End Ends.

(* ================================================================= *)
(** ** The lines before the first heading *)

Module Lead.

Import Segmenter.

Fixpoint lines_before_heading (ls : list string) : list string :=
  match ls with
  | [] => []
  | l :: ls' => if is_heading l then [] else l :: lines_before_heading ls'
  end.

End Lead.

(* ================================================================= *)
(** * Properties *)

(** ** Facts on the string primitives *)

Module PyStrFacts.

Lemma app_empty_r (s : string) : s ++ "" = s.
Proof. induction s as [|c s IH]; simpl; congruence. Qed.

Lemma app_assoc (a b c : string) : (a ++ b) ++ c = a ++ (b ++ c).
Proof. induction a as [|x a IH]; simpl; congruence. Qed.

Lemma lower_app (a b : string) : lower (a ++ b) = lower a ++ lower b.
Proof. induction a as [|x a IH]; simpl; congruence. Qed.

Lemma lower_char_idem (c : ascii) : lower_char (lower_char c) = lower_char c.
Proof. destruct c as [[] [] [] [] [] [] [] []]; reflexivity. Qed.

Lemma lower_idem (s : string) : lower (lower s) = lower s.
Proof.
  induction s as [|c s IH]; simpl; [reflexivity|].
  now rewrite lower_char_idem, IH.
Qed.

Lemma starts_with_app (p r : string) : starts_with p (p ++ r) = true.
Proof.
  induction p as [|c p IH]; simpl; [reflexivity|].
  now rewrite Ascii.eqb_refl, IH.
Qed.

Lemma starts_with_split (p s : string) :
  starts_with p s = true -> exists r, s = p ++ r.
Proof.
  revert s; induction p as [|c p IH]; intros s H.
  - now exists s.
  - destruct s as [|d s]; simpl in H; [discriminate|].
    apply andb_true_iff in H as [Hc Hp].
    apply Ascii.eqb_eq in Hc; subst d.
    destruct (IH _ Hp) as [r ->]. now exists r.
Qed.

Lemma contains_here (p s : string) :
  starts_with p s = true -> contains p s = true.
Proof. intros H. destruct s; simpl; now rewrite H. Qed.

Lemma contains_app (pre p post : string) :
  contains p (pre ++ p ++ post) = true.
Proof.
  induction pre as [|c pre IH].
  - change (contains p (p ++ post) = true).
    apply contains_here, starts_with_app.
  - change (contains p (String c (pre ++ p ++ post)) = true).
    simpl. rewrite IH. apply orb_true_r.
Qed.

Lemma contains_split (p s : string) :
  contains p s = true -> exists pre post, s = pre ++ p ++ post.
Proof.
  induction s as [|c s IH]; simpl; intros H.
  - rewrite orb_false_r in H. apply starts_with_split in H as [r ->].
    now exists "", r.
  - apply orb_true_iff in H as [H|H].
    + apply starts_with_split in H as [r ->]. now exists "", r.
    + destruct (IH H) as (pre & post & ->). now exists (String c pre), post.
Qed.

(** *** White space *)

Functional Scheme lstrip_ind := Induction for lstrip Sort Prop.
Functional Scheme all_space_ind := Induction for all_space Sort Prop.

(** Rewrites with the tests the case analysis of a strip has settled. *)
Ltac settle :=
  repeat match goal with
         | H : is_space _ = _ |- _ => rewrite H in *; clear H
         | H : is_space2 _ _ = _ |- _ => rewrite H in *; clear H
         | H : is_space3 _ _ _ = _ |- _ => rewrite H in *; clear H
         end.

Lemma lstrip_all_space (s : string) : all_space s = true -> lstrip s = "".
Proof.
  functional induction (all_space s); intros H; cbn [lstrip];
    try discriminate H; settle; auto.
  apply andb_true_iff in H as [H3 H]. rewrite H3. auto.
Qed.

Lemma blank_all_space (s : string) : lstrip s = "" -> all_space s = true.
Proof.
  functional induction (lstrip s); intros H; cbn [all_space];
    try discriminate H; settle; auto.
Qed.

Lemma lstrip_suffix (s : string) : exists pre, s = pre ++ lstrip s.
Proof.
  functional induction (lstrip s);
    try (now exists "");
    destruct IHs0 as [pre IH].
  - exists (String c pre). cbn [append]. now rewrite <- IH.
  - exists (String c (String d pre)). cbn [append]. now rewrite <- IH.
  - match goal with
    | |- exists _, String ?a (String ?b (String ?x _)) = _ =>
        exists (String a (String b (String x pre)))
    end.
    cbn [append]. now rewrite <- IH.
Qed.

Lemma lstrip_idem (s : string) : lstrip (lstrip s) = lstrip s.
Proof.
  functional induction (lstrip s); auto; cbn [lstrip]; settle; reflexivity.
Qed.

Lemma lstrip_app_blank (a b : string) :
  lstrip a = "" -> lstrip (a ++ b) = lstrip b.
Proof.
  functional induction (lstrip a); intros H; try discriminate H;
    cbn [append lstrip]; settle; auto.
Qed.

Lemma rstrip_split (s : string) :
  exists post, s = rstrip s ++ post /\ lstrip post = "".
Proof.
  induction s as [|c s (post & IH & Hpost)]; [now exists ""|].
  cbn [rstrip]. destruct (lstrip (String c s)) eqn:E; cbn [nonempty].
  - now exists (String c s).
  - exists post. split; [|exact Hpost]. cbn [append]. now rewrite <- IH.
Qed.

Lemma rstrip_prefix (s : string) : exists post, s = rstrip s ++ post.
Proof. destruct (rstrip_split s) as (post & H & _). now exists post. Qed.

Lemma rstrip_cons (c : ascii) (s : string) :
  rstrip (String c s)
  = if nonempty (lstrip (String c s)) then String c (rstrip s) else "".
Proof. reflexivity. Qed.

(** A prefix of a text that does not start with white space does not. *)
Lemma space_width_prefix (a b : string) :
  space_width (a ++ b) = 0 -> space_width a = 0.
Proof.
  destruct a as [|c [|d [|e a]]]; cbn [append space_width]; auto.
  - destruct (is_space c); [discriminate | reflexivity].
  - destruct (is_space c); [discriminate|].
    destruct b as [|e b]; destruct (is_space2 c d); auto.
Qed.

Lemma lstrip_fixed (s : string) : space_width s = 0 -> lstrip s = s.
Proof.
  destruct s as [|c [|d [|e s]]]; cbn [space_width lstrip]; auto.
  - destruct (is_space c); [discriminate | reflexivity].
  - destruct (is_space c); [discriminate|].
    destruct (is_space2 c d); [discriminate | reflexivity].
  - destruct (is_space c); [discriminate|].
    destruct (is_space2 c d); [discriminate|].
    destruct (is_space3 c d e); [discriminate | reflexivity].
Qed.

Lemma lstrip_width (s : string) : space_width (lstrip s) = 0.
Proof.
  functional induction (lstrip s); auto; cbn [space_width]; settle;
    reflexivity.
Qed.

Lemma strip_all_space (s : string) : all_space s = true -> strip s = "".
Proof. intros H. unfold strip. now rewrite lstrip_all_space. Qed.

Lemma mem_char_app (c : ascii) (a b : string) :
  mem_char c (a ++ b) = mem_char c a || mem_char c b.
Proof.
  induction a as [|d a IH]; [reflexivity|].
  cbn [append mem_char]. now rewrite IH, orb_assoc.
Qed.

Lemma strip_inside (s : string) : exists pre post, s = pre ++ strip s ++ post.
Proof.
  destruct (lstrip_suffix s) as [pre Hpre].
  destruct (rstrip_prefix (lstrip s)) as [post Hpost].
  exists pre, post. unfold strip. now rewrite <- Hpost.
Qed.

Lemma split_on_cons (sep : ascii) (s : string) :
  exists l ls, split_on sep s = l :: ls.
Proof.
  induction s as [|c s (l & ls & IH)]; simpl; [now eauto|].
  destruct (c =? sep)%char; [now eauto|]. rewrite IH. now eauto.
Qed.

Lemma split_on_no_sep (sep : ascii) (s : string) :
  mem_char sep s = false -> split_on sep s = [s].
Proof.
  induction s as [|c s IH]; simpl; [reflexivity|].
  intros H. apply orb_false_iff in H as [Hc Hs].
  now rewrite Hc, (IH Hs).
Qed.

Lemma split_on_app (sep : ascii) (a b : string) :
  split_on sep (a ++ String sep b) = (split_on sep a ++ split_on sep b)%list.
Proof.
  induction a as [|c a IH]; simpl.
  - now rewrite Ascii.eqb_refl.
  - destruct (c =? sep)%char; rewrite IH; [reflexivity|].
    destruct (split_on_cons sep a) as (l & ls & ->). reflexivity.
Qed.


(** Splitting into lines loses nothing: joining gives the text back. *)
Lemma join_split_on (s : string) : join nl (split_on newline s) = s.
Proof.
  induction s as [|c s IH]; [reflexivity|]. cbn [split_on].
  destruct (split_on_cons newline s) as (l & ls & E). rewrite E in *.
  destruct (Ascii.eqb_spec c newline) as [->|_].
  - change (join nl ("" :: l :: ls)) with (String newline (join nl (l :: ls))).
    now rewrite IH.
  - rewrite <- IH. destruct ls; reflexivity.
Qed.

(** Splits a hypothesis [a || b || ... = false] into its parts. *)
Ltac orb_false H :=
  repeat match type of H with
         | (_ || _) = false =>
             let H1 := fresh H in apply orb_false_iff in H as [H1 H]
         end.

End PyStrFacts.

Import PyStrFacts.

(* ================================================================= *)
(** ** The document classifier *)

Module ClassifierFacts.

Import Classifier.

Lemma occurs_ci_contains (kw text : string) :
  occurs_ci kw text -> contains kw (lower text) = true.
Proof.
  intros (pre & w & post & -> & <-).
  rewrite !lower_app. apply contains_app.
Qed.

Lemma first_match_in (rs : list (list string * string)) (s : string) :
  In (first_match rs s) (map snd rs ++ [fallback]).
Proof.
  induction rs as [|[kws label] rs IH]; simpl.
  - now left.
  - destruct (any_in kws s); [now left | now right].
Qed.

Lemma contains_occurs (kw s : string) :
  contains kw s = true <-> occurs kw s.
Proof.
  split.
  - apply contains_split.
  - intros (pre & post & ->). apply contains_app.
Qed.

Lemma any_in_occurs (keywords : list string) (s : string) :
  any_in keywords s = true <-> any_occurs keywords s.
Proof.
  unfold any_in, any_occurs. rewrite existsb_exists.
  split; intros (kw & Hin & H); exists kw; split; trivial;
    now apply contains_occurs.
Qed.

Lemma first_match_rule (rs : list (list string * string)) (s : string) :
  first_rule rs s (first_match rs s).
Proof.
  induction rs as [|[keywords label] rs IH]; cbn [first_match].
  - constructor.
  - destruct (any_in keywords s) eqn:E.
    + apply fr_match. now apply any_in_occurs.
    + apply fr_next; [|exact IH].
      intros H. apply any_in_occurs in H. congruence.
Qed.

Lemma first_rule_unique (rs : list (list string * string))
      (s label : string) :
  first_rule rs s label -> label = first_match rs s.
Proof.
  induction 1 as [s|keywords label rs s H|keywords label rs s other H _ IH];
    cbn [first_match].
  - reflexivity.
  - apply any_in_occurs in H. now rewrite H.
  - destruct (any_in keywords s) eqn:E; [|exact IH].
    apply any_in_occurs in E. contradiction.
Qed.

Lemma occurs_ci_lower (kw text : string) :
  occurs_ci kw text -> occurs kw (lower text).
Proof.
  intros H. apply contains_occurs. now apply occurs_ci_contains.
Qed.

(** Claim C1. The label the classifier returns is the one the ordered
    rules Rental, Loan, Terms of Service, Employment, NDA, Purchase give
    for the lowercased text: the label of the first rule one of whose
    keywords stands in it, and "Legal Document" when no keyword of any
    rule does. That label is the only one the rules allow and one of the
    seven. A text in which both "lease" and "loan" occur, in any letter
    case, is a "Rental Agreement", although a text with "loan" and no
    keyword of the rental rule is a "Loan Agreement". *)
Theorem identify_document_type_first_match :
  (forall text,
      first_rule rules (lower text) (identify_document_type text)) /\
  (forall text label,
      first_rule rules (lower text) label ->
      label = identify_document_type text) /\
  (forall text, In (identify_document_type text) document_types) /\
  (forall text,
      occurs_ci "lease" text -> occurs_ci "loan" text ->
      identify_document_type text = "Rental Agreement") /\
  (forall text,
      occurs_ci "loan" text ->
      ~ any_occurs ["lease"; "rental"; "tenant"; "landlord"] (lower text) ->
      identify_document_type text = "Loan Agreement").
Proof.
  assert (E : forall text,
             identify_document_type text = first_match rules (lower text))
    by reflexivity.
  split; [|split; [|split; [|split]]].
  - intros text. rewrite E. apply first_match_rule.
  - intros text label H. rewrite E. now apply first_rule_unique.
  - intros text. rewrite E. apply first_match_in.
  - intros text Hlease Hloan. symmetry.
    apply (first_rule_unique rules (lower text)).
    apply fr_match. exists "lease". split; [now left|].
    now apply occurs_ci_lower.
  - intros text Hloan Hrental. symmetry.
    apply (first_rule_unique rules (lower text)).
    apply fr_next; [exact Hrental|].
    apply fr_match. exists "loan". split; [now left|].
    now apply occurs_ci_lower.
Qed.

Lemma identify_document_type_first_match_witness :
  identify_document_type "This LEASE secures a Loan" = "Rental Agreement" /\
  identify_document_type "The Loan is repaid monthly" = "Loan Agreement" /\
  "Legal Document" = identify_document_type "Minutes of the meeting".
Proof.
  split; [|split].
  - apply (proj1 (proj2 (proj2 (proj2 identify_document_type_first_match)))).
    + exists "This ", "LEASE", " secures a Loan". split; reflexivity.
    + exists "This LEASE secures a ", "Loan", "". split; reflexivity.
  - apply (proj2 (proj2 (proj2 (proj2 identify_document_type_first_match)))).
    + exists "The ", "Loan", " is repaid monthly". split; reflexivity.
    + intros (kw & Hin & H). apply contains_occurs in H.
      cbn [In] in Hin.
      repeat (destruct Hin as [<-|Hin]; [vm_compute in H; discriminate H|]).
      destruct Hin.
  - apply (proj1 (proj2 identify_document_type_first_match)).
    repeat (apply fr_next;
            [intros (kw & Hin & H); apply contains_occurs in H;
             cbn [In] in Hin;
             repeat (destruct Hin as [<-|Hin];
                     [vm_compute in H; discriminate H|]);
             destruct Hin|]).
    apply fr_fallback.
Defined.

Lemma char_case_variant_lower (c d : ascii) :
  char_case_variant c d -> lower_char d = lower_char c.
Proof.
  intros [->|[[_ ->]|[_ ->]]]; auto using lower_char_idem.
Qed.

Lemma case_variant_lower (s t : string) :
  case_variant s t -> lower t = lower s.
Proof.
  induction 1 as [|c d s t Hc _ IH]; simpl; [reflexivity|].
  now rewrite IH, (char_case_variant_lower _ _ Hc).
Qed.

Lemma uppercased_ligature : uppercased with_ligature with_ligature_upper.
Proof.
  unfold with_ligature, with_ligature_upper.
  apply (up_small "c"); [reflexivity|].
  apply (up_small "o"); [reflexivity|].
  apply (up_small "n"); [reflexivity|].
  change "FIDENTIALITY AGREEMENT" with ("FI" ++ "DENTIALITY AGREEMENT").
  apply up_ligature.
  repeat match goal with
         | |- uppercased (String ?c _) _ =>
             first [ apply (up_small c); [reflexivity|]
                   | apply (up_other c); [reflexivity | reflexivity |] ]
         end.
  apply up_empty.
Qed.

(** [str.upper()] writes the ligature U+FB01 as FI: the text with the
    ligature has no keyword and is a "Legal Document", its uppercased form
    has "confidentiality" and is a "Non-Disclosure Agreement". *)
Lemma case_invariance_counterexample :
  ~ (forall text text',
        uppercased text text' ->
        identify_document_type text' = identify_document_type text).
Proof.
  intros H. specialize (H _ _ uppercased_ligature).
  vm_compute in H. discriminate H.
Qed.

(** Claim C10, amended. Classification does not depend on the case of the
    letters A to Z: two texts that differ only by the case of these letters
    get the same type. *)
Theorem identify_document_type_case_invariant (text text' : string) :
  case_variant text text' ->
  identify_document_type text' = identify_document_type text.
Proof.
  intros Hcv. unfold identify_document_type.
  now rewrite (case_variant_lower _ _ Hcv).
Qed.

Lemma identify_document_type_case_invariant_witness :
  identify_document_type "tHE Borrower" = identify_document_type "The bORROWER".
Proof.
  apply identify_document_type_case_invariant.
  repeat (constructor; [unfold char_case_variant; vm_compute; tauto|]).
  constructor.
Defined.

Example scenario_A :
  identify_document_type
    "This Agreement shall be governed by the laws of the State of Delaware. Tenant shall pay rent of $1500 on the first of each month."
  = "Rental Agreement".
Proof. reflexivity. Qed.

End ClassifierFacts.

(* ================================================================= *)
(** ** The clause rewriter on blank input *)

Module RewriterBlank.

Import Rewriter.

(** Claim C9. On the empty string and on a string of white space only
    (any of the characters [str.isspace] accepts, the no-break space and
    the other spaces above code 128 included), the clause rewriter returns
    the empty string. *)
Theorem simplify_legal_text_blank (text : string) :
  all_space text = true -> simplify_legal_text text = "".
Proof.
  intros H. unfold simplify_legal_text.
  now rewrite (strip_all_space _ H).
Qed.

Lemma simplify_legal_text_blank_witness :
  simplify_legal_text
    (String "009"%char (" " ++ no_break_space ++ nl ++ ideographic_space))
  = "".
Proof. apply simplify_legal_text_blank. reflexivity. Defined.

Example simplify_legal_text_empty : simplify_legal_text "" = "".
Proof. reflexivity. Qed.

End RewriterBlank.

(* ================================================================= *)
(** ** The risk scanner *)

Module RiskScannerFacts.

Import RiskScanner.

Lemma substring_of_refl (s : string) : substring_of s s.
Proof. exists "", "". simpl. now rewrite app_empty_r. Qed.

Lemma substring_of_trans (a b c : string) :
  substring_of a b -> substring_of b c -> substring_of a c.
Proof.
  intros (p1 & q1 & ->) (p2 & q2 & ->).
  exists (p2 ++ p1), (q1 ++ q2). now rewrite !app_assoc.
Qed.

Lemma substring_of_tail (a s : string) (c : ascii) :
  substring_of a s -> substring_of a (String c s).
Proof. intros (p & q & ->). now exists (String c p), q. Qed.

Lemma substring_of_empty (s : string) : substring_of "" s.
Proof. now exists "", s. Qed.

Lemma substring_of_strip (s : string) : substring_of (strip s) s.
Proof. exact (strip_inside s). Qed.

Lemma split_sentences_from_cons (s : string) :
  forall prev in_sep,
  exists p ps, split_sentences_from prev in_sep s = p :: ps.
Proof.
  induction s as [|c s IH]; intros prev in_sep; simpl; [now eauto|].
  destruct ((c =? space)%char && in_sep); [apply IH|].
  destruct ((c =? space)%char && is_terminator prev); [now eauto|].
  destruct (split_sentences_from _ _ _); now eauto.
Qed.

(** Outside a separator the first sentence starts the text. *)
Lemma split_sentences_head (s : string) :
  forall prev p ps,
    split_sentences_from prev false s = p :: ps -> exists r, s = p ++ r.
Proof.
  induction s as [|c s IH]; intros prev p ps; simpl.
  - intros [= <- <-]. now exists "".
  - rewrite andb_false_r.
    destruct ((c =? space)%char && is_terminator prev).
    + intros [= <- <-]. now exists (String c s).
    + destruct (split_sentences_from (Some c) false s) as [|p0 ps0] eqn:E.
      * intros [= <- <-].
        destruct (split_sentences_from_cons s (Some c) false) as (x & y & F).
        congruence.
      * intros [= <- <-]. destruct (IH _ _ _ E) as [r ->]. now exists r.
Qed.

(** Every sentence of the split occurs in the text. *)
Lemma split_sentences_from_inside (s : string) :
  forall prev in_sep p,
    In p (split_sentences_from prev in_sep s) -> substring_of p s.
Proof.
  induction s as [|c s IH]; intros prev in_sep p; simpl.
  - intros [<-|[]]. apply substring_of_refl.
  - destruct ((c =? space)%char && in_sep).
    { intros H. apply substring_of_tail. eapply IH, H. }
    destruct ((c =? space)%char && is_terminator prev).
    { intros [<-|H]; [apply substring_of_empty|].
      apply substring_of_tail. eapply IH, H. }
    destruct (split_sentences_from (Some c) false s) as [|p0 ps0] eqn:E.
    + intros [<-|[]]. exists "", s. reflexivity.
    + intros [<-|H].
      * destruct (split_sentences_head _ _ _ _ E) as [r ->].
        now exists "", r.
      * apply substring_of_tail. apply (IH (Some c) false).
        rewrite E. now right.
Qed.

Lemma split_sentences_inside (text p : string) :
  In p (split_sentences text) -> substring_of p text.
Proof. apply split_sentences_from_inside. Qed.

(** The loop of [find_example_clauses] never holds more than three
    examples and only adds stripped sentences. *)
Lemma collect_examples_length (pattern : regex) (sentences : list string) :
  forall examples,
    List.length examples < 3 ->
    List.length (collect_examples pattern sentences examples) <= 3.
Proof.
  induction sentences as [|sentence rest IH]; intros examples H;
    cbn [collect_examples].
  - lia.
  - destruct (search true pattern sentence); [|now apply IH].
    destruct (Nat.leb_spec 3 (List.length (examples ++ [strip sentence])))
      as [L|L].
    + rewrite List.length_app. simpl List.length. lia.
    + apply IH; exact L.
Qed.

Lemma collect_examples_from (P : string -> Prop) (pattern : regex)
      (sentences : list string) :
  Forall (fun sentence => P (strip sentence)) sentences ->
  forall examples,
    Forall P examples ->
    Forall P (collect_examples pattern sentences examples).
Proof.
  induction 1 as [|sentence rest Hs _ IH]; intros examples H;
    cbn [collect_examples].
  - exact H.
  - destruct (search true pattern sentence); [|now apply IH].
    assert (H' : Forall P (examples ++ [strip sentence]))
      by (apply Forall_app; split; [exact H|now constructor]).
    destruct (3 <=? _)%nat; [exact H'|now apply IH].
Qed.

Lemma find_example_clauses_ok (text : string) (pattern : regex)
      (description level : string) :
  bounded_verbatim text
    (mkRisk description level (find_example_clauses text pattern)).
Proof.
  split; simpl; unfold find_example_clauses.
  - apply collect_examples_length. simpl. lia.
  - apply collect_examples_from; [|constructor].
    apply Forall_forall. intros sentence Hin.
    eapply substring_of_trans; [apply substring_of_strip|].
    now apply split_sentences_inside.
Qed.

(** Claim C5. Every finding of the risk scanner carries at most three
    examples, and each example occurs verbatim in the original text. *)
Theorem identify_risks_examples (text : string) :
  Forall (bounded_verbatim text) (identify_risks text).
Proof.
  unfold identify_risks.
  generalize risk_patterns as rules.
  assert (G : forall rules acc,
             Forall (bounded_verbatim text) acc ->
             Forall (bounded_verbatim text)
               (fold_left
                  (fun risks rule =>
                     let '(pattern, description, risk_level) := rule in
                     if search false pattern (lower text) then
                       (risks ++ [mkRisk description risk_level
                                    (find_example_clauses text pattern)])%list
                     else risks)
                  rules acc)).
  { induction rules as [|[[pattern description] risk_level] rules IH];
      intros acc Hacc; simpl; [exact Hacc|].
    apply IH. destruct (search false pattern (lower text)); [|exact Hacc].
    apply Forall_app; split; [exact Hacc|].
    constructor; [apply find_example_clauses_ok|constructor]. }
  intros rules. apply G. constructor.
Qed.

Example scenario_B :
  identify_risks
    "Intro. The parties agree to resolve all disputes through binding arbitration pursuant to the rules of the AAA. Bye."
  = [ mkRisk
        "You might not be able to sue in court and must use arbitration instead"
        "medium"
        ["The parties agree to resolve all disputes through binding arbitration pursuant to the rules of the AAA."] ].
Proof. reflexivity. Qed.

(** The bound is reached: a fourth matching sentence is not reported. *)
Example three_examples_at_most :
  map examples
      (identify_risks "Evergreen one. Evergreen two. Evergreen three. Evergreen four.")
  = [["Evergreen one."; "Evergreen two."; "Evergreen three."]].
Proof. reflexivity. Qed.

End RiskScannerFacts.

(* ================================================================= *)
(** ** The summary generator *)

Module SummaryFacts.

Import Rewriter Summary.

(** The header is written before the type is looked at: an "Employment
    Contract" without sections gets a checklist section all the same. *)
Lemma generate_summary_counterexample :
  ~ (forall (shorten : string -> string) (sections : dict),
        has_checklist_section
          (generate_summary shorten "Employment Contract" sections) = false).
Proof.
  intros H. specialize (H (fun s => s) []). vm_compute in H. discriminate.
Qed.

(** Claim C8, amended. The summary is the opening with the section list,
    then the header of the checklist, then the checklist items; items
    follow the header for "Rental Agreement", "Loan Agreement" and "Terms
    of Service" only, and for every other type, "Legal Document",
    "Employment Contract", "Non-Disclosure Agreement" and "Purchase
    Agreement" among them, the summary ends with the bare header. *)
Theorem generate_summary_checklist :
  (forall shorten document_type sections,
      has_checklist document_type = false ->
      generate_summary shorten document_type sections
      = summary_head shorten document_type sections ++ checklist_header) /\
  (forall shorten document_type sections,
      has_checklist document_type = true ->
      exists items,
        generate_summary shorten document_type sections
        = summary_head shorten document_type sections ++ checklist_header
          ++ "- " ++ items) /\
  Forall (fun document_type => has_checklist document_type = false)
         [ "Legal Document"; "Employment Contract";
           "Non-Disclosure Agreement"; "Purchase Agreement" ].
Proof.
  split; [|split].
  - intros shorten document_type sections H.
    unfold has_checklist in H. cbn [existsb] in H. orb_false H.
    unfold generate_summary. now rewrite H0, H1, H2.
  - intros shorten document_type sections H.
    unfold generate_summary. fold (summary_head shorten document_type sections).
    unfold has_checklist in H. cbn [existsb] in H.
    destruct (document_type =? "Rental Agreement")%string;
      [eexists; rewrite app_assoc; reflexivity|].
    destruct (document_type =? "Loan Agreement")%string;
      [eexists; rewrite app_assoc; reflexivity|].
    destruct (document_type =? "Terms of Service")%string;
      [eexists; rewrite app_assoc; reflexivity|].
    discriminate.
  - repeat constructor.
Qed.

Lemma generate_summary_checklist_witness :
  generate_summary (fun s => s) "Purchase Agreement" [("Parties", "A and B")]
  = summary_head (fun s => s) "Purchase Agreement" [("Parties", "A and B")]
    ++ checklist_header
  /\ exists items,
      generate_summary (fun s => s) "Loan Agreement" []
      = summary_head (fun s => s) "Loan Agreement" [] ++ checklist_header
        ++ "- " ++ items.
Proof.
  split.
  - apply (proj1 generate_summary_checklist). reflexivity.
  - apply (proj1 (proj2 generate_summary_checklist)). reflexivity.
Defined.

End SummaryFacts.

(* ================================================================= *)
(** ** The per-document run *)

Module PipelineFacts.

Import Pipeline.




(** A failure result has the two fields [success] and [error] only. *)
Example failure_fields (msg : string) :
  map fst (failure msg) = ["success"; "error"] /\
  field "success" (failure msg) = Some (VBool false) /\
  field "error" (failure msg) = Some (VStr msg) /\
  field "document_type" (failure msg) = None.
Proof. repeat split. Qed.

(** A supported file that decodes gives the full analysis. *)
Example process_document_success :
  map fst
      (process_document (fun _ => Return "") (fun _ => Return "")
                        (fun s => Return s) (fun s => s)
                        (mkFile "notes.TXT" "Tenant shall pay rent."))
  = [ "success"; "original_text"; "simplified_text"; "document_type";
      "sections"; "risks"; "summary"; "file_name" ].
Proof. reflexivity. Qed.

End PipelineFacts.

(* ================================================================= *)
(** ** The section segmenter *)

Module SegmenterFacts.

Import Segmenter.

(** *** Dictionaries *)

Lemma get_set (k k' v : string) (d : dict) :
  get k (set k' v d) = if (k' =? k)%string then Some v else get k d.
Proof.
  induction d as [|[k0 v0] d IH]; simpl.
  - reflexivity.
  - destruct (String.eqb_spec k0 k') as [->|N]; simpl.
    + destruct (k' =? k)%string; reflexivity.
    + rewrite IH. destruct (String.eqb_spec k0 k) as [->|N']; [|reflexivity].
      apply String.eqb_neq in N. rewrite String.eqb_sym in N. now rewrite N.
Qed.

Lemma set_fresh (k v : string) (d : dict) :
  ~ In k (keys d) -> set k v d = (d ++ [(k, v)])%list.
Proof.
  induction d as [|[k0 v0] d IH]; simpl; intros H; [reflexivity|].
  destruct (String.eqb_spec k0 k) as [->|N]; [tauto|].
  rewrite IH; tauto.
Qed.

Lemma keys_set (k v : string) (d : dict) (k' : string) :
  In k' (keys (set k v d)) -> k' = k \/ In k' (keys d).
Proof.
  induction d as [|[k0 v0] d IH]; simpl.
  - intros [<-|[]]. now left.
  - destruct (k0 =? k)%string; simpl; [tauto|].
    intros [<-|H]; [tauto|]. destruct (IH H); tauto.
Qed.


(** *** Lines and line feeds *)

Lemma split_on_free (sep : ascii) (s : string) :
  Forall (fun l => mem_char sep l = false) (split_on sep s).
Proof.
  induction s as [|c s IH]; simpl.
  - now constructor.
  - destruct (c =? sep)%char eqn:E; [now constructor|].
    destruct (split_on sep s) as [|l ls]; [now repeat constructor; simpl; rewrite E|].
    inversion IH as [|? ? Hl Hls]; subst.
    constructor; [simpl; now rewrite E, Hl | exact Hls].
Qed.

Lemma mem_char_lstrip (c : ascii) (s : string) :
  mem_char c s = false -> mem_char c (lstrip s) = false.
Proof.
  destruct (lstrip_suffix s) as [pre H]. rewrite H at 1.
  rewrite mem_char_app. intros E. now apply orb_false_iff in E as [_ E].
Qed.

Lemma mem_char_rstrip (c : ascii) (s : string) :
  mem_char c s = false -> mem_char c (rstrip s) = false.
Proof.
  destruct (rstrip_prefix s) as [post H]. rewrite H at 1.
  rewrite mem_char_app. intros E. now apply orb_false_iff in E as [E _].
Qed.

Lemma mem_char_strip (c : ascii) (s : string) :
  mem_char c s = false -> mem_char c (strip s) = false.
Proof. intros H. now apply mem_char_rstrip, mem_char_lstrip. Qed.

Lemma visible_lines_free (text : string) :
  Forall (fun l => mem_char newline l = false) (visible_lines text).
Proof.
  unfold visible_lines. apply Forall_forall. intros l Hin.
  apply filter_In in Hin as [Hin _]. apply in_map_iff in Hin as (l0 & <- & Hin).
  apply mem_char_strip.
  exact (proj1 (Forall_forall _ _) (split_on_free newline text) _ Hin).
Qed.

(** Joining lines and splitting again gives the lines back. *)
Lemma split_join (ls : list string) :
  ls <> [] ->
  Forall (fun l => mem_char newline l = false) ls ->
  split_on newline (join nl ls) = ls.
Proof.
  induction ls as [|x ls IH]; [congruence|].
  intros _ H. inversion H as [|? ? Hx Hls]; subst.
  destruct ls as [|y ls].
  - simpl. now apply split_on_no_sep.
  - change (join nl (x :: y :: ls)) with (x ++ String newline (join nl (y :: ls))).
    rewrite split_on_app, IH by (congruence || assumption).
    now rewrite (split_on_no_sep _ _ Hx).
Qed.

(** *** The loop and the sections of the text *)

Lemma is_heading_nonempty (l : string) :
  is_heading l = true -> nonempty l = true.
Proof. destruct l; [discriminate | reflexivity]. Qed.

Lemma flush_close (st : state) :
  flush st
  = fold_left store (close (current_section st) (section_content st))
              (sections st).
Proof.
  unfold flush, close. destruct (section_content st); [reflexivity|].
  destruct (nonempty (current_section st)); reflexivity.
Qed.

Lemma fold_step_segments (lines : list string) :
  forall st,
    flush (fold_left step lines st)
    = fold_left store
        (segments (current_section st) (section_content st)
                  (filter nonempty (map strip lines)))
        (sections st).
Proof.
  induction lines as [|line lines IH]; intros st.
  - apply flush_close.
  - cbn [fold_left map filter]. unfold step at 2.
    destruct (nonempty (strip line)); cbn [negb].
    + cbn [segments]. destruct (is_heading (strip line)).
      * rewrite IH. cbn [current_section section_content sections].
        now rewrite fold_left_app, <- flush_close.
      * now rewrite IH.
    + apply IH.
Qed.

(** The segmenter writes the sections of the text into an empty map, one
    after the other. *)
Lemma identify_key_sections_segments (text : string) :
  identify_key_sections text = fold_left store (sections_of text) [].
Proof. unfold identify_key_sections. now rewrite fold_step_segments. Qed.


Lemma close_well_formed (cur : string) (buf : list string) :
  Forall (fun l => mem_char newline l = false) buf ->
  Forall well_formed (close cur buf).
Proof.
  intros H. unfold close. destruct buf as [|l buf]; [constructor|].
  destruct (nonempty cur); [|constructor].
  constructor; [|constructor]. split; [discriminate | exact H].
Qed.

Lemma segments_well_formed (ls : list string) :
  forall cur buf,
    Forall (fun l => mem_char newline l = false) buf ->
    Forall (fun l => mem_char newline l = false) ls ->
    Forall well_formed (segments cur buf ls).
Proof.
  induction ls as [|l ls IH]; intros cur buf Hbuf Hls; cbn [segments].
  - now apply close_well_formed.
  - inversion Hls as [|? ? Hl Hls']; subst.
    destruct (is_heading l).
    + apply Forall_app; split; [now apply close_well_formed|].
      apply IH; [constructor | exact Hls'].
    + apply IH; [|exact Hls'].
      apply Forall_app; split; [exact Hbuf | now repeat constructor].
Qed.


Lemma close_content (cur : string) (buf : list string) :
  nonempty cur = true -> flat_map snd (close cur buf) = buf.
Proof.
  intros H. unfold close. rewrite H.
  destruct buf; simpl; [reflexivity | now rewrite app_nil_r].
Qed.

(** The bodies of the sections, one after the other, are the lines that
    are not headings. *)
Lemma segments_content (ls : list string) :
  forall cur buf,
    nonempty cur = true ->
    flat_map snd (segments cur buf ls)
    = (buf ++ filter (fun l => negb (is_heading l)) ls)%list.
Proof.
  induction ls as [|l ls IH]; intros cur buf Hcur; cbn [segments filter].
  - rewrite app_nil_r. now apply close_content.
  - destruct (is_heading l) eqn:E; cbn [negb].
    + rewrite flat_map_app, close_content by exact Hcur.
      now rewrite IH by (now apply is_heading_nonempty).
    + rewrite IH by exact Hcur. now rewrite <- List.app_assoc.
Qed.




(** *** Keys *)

Lemma keys_fold_store (segs : list (string * list string)) :
  forall d k,
    In k (keys (fold_left store segs d)) ->
    In k (keys d) \/ In k (map fst segs).
Proof.
  induction segs as [|[k0 b] segs IH]; intros d k H; simpl in *.
  - now left.
  - destruct (IH _ _ H) as [H'|H']; [|now right; right].
    unfold store in H'. apply keys_set in H' as [->|H']; cbn [fst].
    + right; now left.
    + now left.
Qed.

Lemma close_keys (cur : string) (buf : list string) (k : string) :
  In k (map fst (close cur buf)) -> k = cur.
Proof.
  unfold close. destruct buf; [intros []|].
  destruct (nonempty cur); simpl; intuition.
Qed.

Lemma segments_keys (ls : list string) :
  forall cur buf k,
    In k (map fst (segments cur buf ls)) ->
    k = cur \/ In k (filter is_heading ls).
Proof.
  induction ls as [|l ls IH]; intros cur buf k; cbn [segments filter].
  - intros H. left. eapply close_keys, H.
  - destruct (is_heading l).
    + rewrite map_app. intros H. apply in_app_or in H as [H|H].
      * left. eapply close_keys, H.
      * right. destruct (IH _ _ _ H) as [->|H']; [now left | now right].
    + apply IH.
Qed.

(** A key of the section map is "Introduction" or a detected heading line. *)
Lemma identify_key_sections_keys (text k : string) :
  In k (keys (identify_key_sections text)) ->
  k = "Introduction" \/ In k (heading_lines text).
Proof.
  rewrite identify_key_sections_segments. intros H.
  apply keys_fold_store in H as [[]|H].
  now apply segments_keys in H.
Qed.

Lemma get_fold_store (k : string) (segs : list (string * list string)) :
  forall d,
    get k (fold_left store segs d)
    = match last_body k segs with
      | Some b => Some (join nl b)
      | None => get k d
      end.
Proof.
  induction segs as [|[k0 b] segs IH]; intros d; simpl; [reflexivity|].
  rewrite IH. destruct (last_body k segs); [reflexivity|].
  unfold store. cbn [fst snd]. rewrite get_set.
  destruct (k0 =? k)%string; reflexivity.
Qed.

Lemma get_absent (k : string) (d : dict) : ~ In k (keys d) -> get k d = None.
Proof.
  induction d as [|[k0 v0] d IH]; simpl; intros H; [reflexivity|].
  destruct (String.eqb_spec k0 k) as [->|N]; [tauto|]. apply IH. tauto.
Qed.

(** A heading line with white space around it is not kept as found: the
    key "Parties" is neither the sentinel nor a line of the text. *)
Lemma section_keys_counterexample :
  ~ (forall text,
        Forall (fun k => k = "Introduction" \/ In k (split_on newline text))
               (keys (identify_key_sections text))).
Proof.
  intros H. specialize (H padded_heading). vm_compute in H.
  inversion H as [|k ks [E|[E|[E|[]]]] _]; discriminate E.
Qed.

(** Claim C7, amended. Every key of the section map is the sentinel
    "Introduction" or a detected heading line of the text with the white
    space at its ends stripped, its letters and words unchanged; and the
    value under a key is the body of the last section of the text opened
    under that key, so that a repeated heading overwrites the body stored
    for its earlier occurrence. *)
Theorem section_keys_overwrite (text : string) :
  Forall (fun k => k = "Introduction" \/ In k (heading_lines text))
         (keys (identify_key_sections text)) /\
  (forall k,
      In k (heading_lines text) ->
      exists line,
        In line (split_on newline text) /\ k = strip line /\
        is_heading (strip line) = true) /\
  forall k,
    get k (identify_key_sections text)
    = option_map (join nl) (last_body k (sections_of text)).
Proof.
  split; [|split].
  - apply Forall_forall. intros k. apply identify_key_sections_keys.
  - intros k H. unfold heading_lines, visible_lines in H.
    apply filter_In in H as [H Hk]. apply filter_In in H as [H _].
    apply in_map_iff in H as (line & <- & H). now exists line.
  - intros k. rewrite identify_key_sections_segments, get_fold_store.
    destruct (last_body k (sections_of text)); reflexivity.
Qed.

Lemma section_keys_overwrite_witness :
  (exists line,
      In line (split_on newline padded_heading) /\
      "Parties" = strip line /\ is_heading (strip line) = true) /\
  get "Parties" (identify_key_sections repeated_heading) = Some "second body".
Proof.
  split.
  - apply (proj1 (proj2 (section_keys_overwrite padded_heading))).
    now left.
  - rewrite (proj2 (proj2 (section_keys_overwrite repeated_heading))).
    reflexivity.
Defined.

Example repeated_heading_sections :
  sections_of repeated_heading
  = [("Parties", ["first body"]); ("Parties", ["second body"])]
  /\ identify_key_sections repeated_heading = [("Parties", "second body")].
Proof. split; reflexivity. Qed.

Example heading_key_verbatim :
  identify_key_sections ("  PARTIES to the Lease " ++ nl ++ "Ann, Bob")
  = [("PARTIES to the Lease", "Ann, Bob")].
Proof. reflexivity. Qed.

(** *** Edge cases *)

Lemma segments_no_heading (ls : list string) :
  forall cur buf,
    filter is_heading ls = [] ->
    segments cur buf ls = close cur (buf ++ ls).
Proof.
  induction ls as [|l ls IH]; intros cur buf; cbn [segments filter].
  - now rewrite app_nil_r.
  - destruct (is_heading l); [discriminate|].
    intros H. now rewrite IH, <- List.app_assoc.
Qed.

Lemma trailing_heading_step (st : state) (h : string) :
  is_heading (strip h) = true -> flush (step st h) = flush st.
Proof.
  intros H. unfold step.
  now rewrite (is_heading_nonempty _ H), H.
Qed.

(** The empty text has no heading and yields no entry; and "Parties" at the
    end of a text that already has a section "Parties" finds that entry. *)
Lemma segmenter_edge_cases_counterexample :
  ~ (forall text,
        heading_lines text = [] ->
        exists body, identify_key_sections text = [("Introduction", body)])
  /\
  ~ (forall text h,
        is_heading (strip h) = true -> mem_char newline h = false ->
        get (strip h) (identify_key_sections (text ++ nl ++ h)) = None).
Proof.
  split.
  - intros H. destruct (H "" eq_refl) as [body E]. discriminate E.
  - intros H.
    specialize (H ("Parties" ++ nl ++ "Ann and Bob") "Parties" eq_refl eq_refl).
    vm_compute in H. discriminate H.
Qed.

Lemma lines_of_tail (h : string) (blanks : list string) :
  mem_char newline h = false -> forallb blank_line blanks = true ->
  split_on newline (join nl (h :: blanks)) = h :: blanks.
Proof.
  intros Hh Hb. apply split_join; [discriminate|].
  constructor; [exact Hh|]. apply Forall_forall. intros l Hl.
  apply (proj1 (forallb_forall _ _) Hb) in Hl. unfold blank_line in Hl.
  apply andb_true_iff in Hl as [_ Hl]. now apply negb_true_iff in Hl.
Qed.

Lemma fold_step_blank (blanks : list string) :
  forallb blank_line blanks = true ->
  forall st, fold_left step blanks st = st.
Proof.
  induction blanks as [|l blanks IH]; intros H st; [reflexivity|].
  cbn [forallb] in H. apply andb_true_iff in H as [Hl H].
  unfold blank_line in Hl. apply andb_true_iff in Hl as [Hl _].
  cbn [fold_left]. unfold step at 2. rewrite Hl. now apply IH.
Qed.

Lemma trailing_heading_lines (st : state) (h : string)
      (blanks : list string) :
  is_heading (strip h) = true -> forallb blank_line blanks = true ->
  flush (fold_left step (h :: blanks) st) = flush st.
Proof.
  intros Hh Hb. cbn [fold_left]. rewrite (fold_step_blank _ Hb).
  now apply trailing_heading_step.
Qed.

(** Claim C6, amended. A text without detected heading yields no entry when
    all its lines are blank, and otherwise the single entry "Introduction"
    whose body is the stripped non-blank lines joined by line feeds; that
    body is the whole text when the text has no blank line and no line with
    white space at its ends. A text that is one heading line, with or
    without blank lines after it, yields no entry. A heading line at the
    end of a text, with or without blank lines after it, adds nothing to
    the map of the text before it, and no entry has its key unless that
    heading line was detected earlier in the text. *)
Theorem segmenter_edge_cases :
  (forall text,
      heading_lines text = [] ->
      identify_key_sections text
      = match visible_lines text with
        | [] => []
        | _ :: _ => [("Introduction", join nl (visible_lines text))]
        end) /\
  (forall text,
      heading_lines text = [] ->
      visible_lines text = split_on newline text ->
      identify_key_sections text = [("Introduction", text)]) /\
  (forall h blanks,
      is_heading (strip h) = true -> mem_char newline h = false ->
      forallb blank_line blanks = true ->
      identify_key_sections (join nl (h :: blanks)) = []) /\
  (forall text h blanks,
      is_heading (strip h) = true -> mem_char newline h = false ->
      forallb blank_line blanks = true ->
      identify_key_sections (text ++ nl ++ join nl (h :: blanks))
      = identify_key_sections text /\
      (~ In (strip h) (heading_lines text) ->
       get (strip h)
           (identify_key_sections (text ++ nl ++ join nl (h :: blanks)))
       = None)).
Proof.
  assert (A : forall text,
             heading_lines text = [] ->
             identify_key_sections text
             = match visible_lines text with
               | [] => []
               | _ :: _ => [("Introduction", join nl (visible_lines text))]
               end).
  { intros text H. rewrite identify_key_sections_segments.
    unfold sections_of. rewrite segments_no_heading by exact H.
    cbn [app]. destruct (visible_lines text); reflexivity. }
  split; [exact A|split; [|split]].
  - intros text H Hall. rewrite (A text H), Hall.
    destruct (split_on_cons newline text) as (l & ls & E).
    rewrite E, <- E. now rewrite join_split_on.
  - intros h blanks Hh Hfree Hb. unfold identify_key_sections.
    rewrite (lines_of_tail _ _ Hfree Hb).
    now rewrite trailing_heading_lines.
  - intros text h blanks Hh Hfree Hb.
    assert (E : identify_key_sections (text ++ nl ++ join nl (h :: blanks))
                = identify_key_sections text).
    { unfold identify_key_sections.
      change (text ++ nl ++ join nl (h :: blanks))
        with (text ++ String newline (join nl (h :: blanks))).
      rewrite split_on_app, (lines_of_tail _ _ Hfree Hb), fold_left_app.
      now apply trailing_heading_lines. }
    split; [exact E|].
    intros Hnew. rewrite E. apply get_absent. intros Hin.
    apply identify_key_sections_keys in Hin as [Hin|Hin]; [|tauto].
    rewrite Hin in Hh. vm_compute in Hh. discriminate Hh.
Qed.

Lemma segmenter_edge_cases_witness :
  identify_key_sections blank_and_padded
  = [("Introduction", "Ann lets a flat to Bob." ++ nl ++ "Rent is due monthly.")]
  /\ identify_key_sections ("Ann lets a flat to Bob." ++ nl ++ "Rent is due monthly.")
     = [("Introduction", "Ann lets a flat to Bob." ++ nl ++ "Rent is due monthly.")]
  /\ identify_key_sections (join nl [" Signatures "; ""; "  "; ""]) = []
  /\ identify_key_sections (two_sections ++ nl ++ join nl ["Signatures"; ""])
     = identify_key_sections two_sections
  /\ get "Signatures"
         (identify_key_sections (two_sections ++ nl ++ join nl ["Signatures"; ""]))
     = None.
Proof.
  split; [|split; [|split; [|split]]].
  - apply (proj1 segmenter_edge_cases blank_and_padded). reflexivity.
  - apply (proj1 (proj2 segmenter_edge_cases)); reflexivity.
  - apply (proj1 (proj2 (proj2 segmenter_edge_cases))); reflexivity.
  - apply (proj2 (proj2 (proj2 segmenter_edge_cases))
             two_sections "Signatures" [""]);
      reflexivity.
  - apply (proj2 (proj2 (proj2 segmenter_edge_cases))
             two_sections "Signatures" [""]);
      [reflexivity | reflexivity | reflexivity |].
    vm_compute. intuition discriminate.
Defined.

End SegmenterFacts.

(* ================================================================= *)
(** ** The clause rewriter on its own output *)

Module RewriterFacts.

Import Rewriter.

(** Without a match the substitution returns its input. *)
Lemma sub_from_no_match (wb : bool) (pat repl : string) (s : string) :
  forall prev,
    occurs_from wb pat prev s = false ->
    sub_from wb pat repl prev 0 s = s.
Proof.
  induction s as [|c s IH]; intros prev H; [reflexivity|].
  cbn [occurs_from] in H. apply orb_false_iff in H as [Hm Hs].
  cbn [sub_from]. rewrite Hm. now rewrite IH.
Qed.

Lemma annotate_no_jargon (terms : list (string * string)) :
  forall text,
    existsb (fun entry => occurs_from true (fst entry) None text) terms = false ->
    fold_left
      (fun simplified_text entry =>
         sub_word (fst entry) (annotation (fst entry) (snd entry))
                  simplified_text)
      terms text
    = text.
Proof.
  induction terms as [|[term gloss] terms IH]; intros text H; [reflexivity|].
  cbn [existsb fst] in H. apply orb_false_iff in H as [Hterm Hterms].
  cbn [fold_left fst snd]. unfold sub_word at 2.
  rewrite sub_from_no_match by exact Hterm. now apply IH.
Qed.

(** The annotation of "hereinafter" is annotated again on the second run. *)
Lemma rewriter_idempotence_counterexample :
  ~ (forall text,
        annotation_count (simplify_legal_text (simplify_legal_text text))
        = annotation_count (simplify_legal_text text)).
Proof.
  intros H. specialize (H "hereinafter"). vm_compute in H. discriminate H.
Qed.

(** Claim C4, amended. The jargon annotation has no guard against its own
    output: for every jargon term other than "pursuant to", the rewriter
    turns the bare term into its annotation, and turns that output into an
    annotation nested in a second one. The annotation step leaves an ASCII
    text unchanged when no jargon term occurs in it as a whole word. *)
Theorem rewriter_reannotates :
  (forall term gloss,
      In (term, gloss) legal_terms -> term <> "pursuant to" ->
      simplify_legal_text term = annotation term gloss /\
      simplify_legal_text (simplify_legal_text term)
      = span_open ++ annotation term gloss ++ "</span> (" ++ gloss ++ ")") /\
  (forall text,
      is_ascii text = true -> has_jargon text = false ->
      annotate_terms text = text).
Proof.
  split.
  - intros term gloss Hin Hne.
    assert (F : forallb
                  (fun entry =>
                     (fst entry =? "pursuant to")%string
                     || ((simplify_legal_text (fst entry)
                          =? annotation (fst entry) (snd entry))%string
                         && (simplify_legal_text
                               (simplify_legal_text (fst entry))
                             =? span_open
                                ++ annotation (fst entry) (snd entry)
                                ++ "</span> (" ++ snd entry ++ ")")%string))
                  legal_terms = true)
      by (vm_compute; reflexivity).
    apply (proj1 (forallb_forall _ _) F) in Hin. cbn [fst snd] in Hin.
    apply orb_true_iff in Hin as [Hin|Hin].
    + apply String.eqb_eq in Hin. contradiction.
    + apply andb_true_iff in Hin as [H1 H2].
      apply String.eqb_eq in H1. apply String.eqb_eq in H2.
      split; assumption.
  - intros text _ H. now apply annotate_no_jargon.
Qed.

Lemma rewriter_reannotates_witness :
  annotate_terms "The tenants are liableness-free hereinafterwards."
  = "The tenants are liableness-free hereinafterwards."
  /\ simplify_legal_text (simplify_legal_text "arbitration")
     = span_open ++ annotation "arbitration" "resolving disputes outside of court"
       ++ "</span> (" ++ "resolving disputes outside of court" ++ ")".
Proof.
  split.
  - apply (proj2 rewriter_reannotates); reflexivity.
  - apply (proj1 rewriter_reannotates
             "arbitration" "resolving disputes outside of court").
    + vm_compute. tauto.
    + discriminate.
Defined.

Example scenario_C :
  simplify_legal_text "hereinafter referred to as the Company"
  = annotation "hereinafter" "from now on" ++ " referred to as the Company".
Proof. reflexivity. Qed.

Example annotated_twice :
  annotation_count (simplify_legal_text "hereinafter") = 1 /\
  annotation_count (simplify_legal_text (simplify_legal_text "hereinafter")) = 2.
Proof. split; reflexivity. Qed.

End RewriterFacts.

(* ================================================================= *)
(** * Further properties *)

(** ** More on white space *)

Module StripFacts.

Lemma rstrip_idem (s : string) : rstrip (rstrip s) = rstrip s.
Proof.
  induction s as [|c s IH]; [reflexivity|].
  rewrite rstrip_cons.
  destruct (nonempty (lstrip (String c s))) eqn:E; [|reflexivity].
  rewrite rstrip_cons, IH.
  destruct (lstrip (String c (rstrip s))) eqn:B; [|reflexivity].
  destruct (rstrip_split s) as (post & Hs & Hpost).
  rewrite Hs in E.
  change (String c (rstrip s ++ post)) with (String c (rstrip s) ++ post) in E.
  rewrite (lstrip_app_blank _ _ B), Hpost in E. discriminate E.
Qed.

Lemma strip_idem (s : string) : strip (strip s) = strip s.
Proof.
  unfold strip.
  destruct (rstrip_prefix (lstrip s)) as [post H].
  pose proof (lstrip_width s) as W. rewrite H in W.
  apply space_width_prefix in W.
  rewrite (lstrip_fixed _ W). apply rstrip_idem.
Qed.

(** A string that keeps something when stripped is not blank. *)
Lemma not_blank_strip (s : string) :
  nonempty (strip s) = true -> all_space s = false.
Proof.
  intros H. destruct (all_space s) eqn:E; [|reflexivity].
  rewrite (strip_all_space _ E) in H. discriminate H.
Qed.

Lemma strip_not_blank (s : string) :
  all_space s = false -> nonempty (strip s) = true.
Proof.
  intros H. unfold strip.
  destruct (lstrip s) as [|c r] eqn:E.
  - rewrite (blank_all_space _ E) in H. discriminate H.
  - rewrite rstrip_cons, <- E, lstrip_idem, E. reflexivity.
Qed.

(** No white-space character of two or three bytes holds a byte below
    code 128. *)
Lemma code_in_low (lo hi : nat) (c : ascii) :
  128 <= lo -> low c = true -> code_in lo hi c = false.
Proof.
  unfold low, code_in. intros Hlo H. apply Nat.ltb_lt in H.
  apply andb_false_iff. left. apply Nat.leb_gt. lia.
Qed.

Ltac high_out H :=
  repeat match goal with
         | |- context [code_in ?lo ?hi ?c] =>
             match type of H with
             | low c = true => rewrite (code_in_low lo hi c) by (lia || exact H)
             end
         end;
  cbn [andb orb]; rewrite ?andb_false_r; cbn [andb orb]; try reflexivity.

Lemma is_space2_low_l (c d : ascii) : low c = true -> is_space2 c d = false.
Proof. intros H. unfold is_space2. high_out H. Qed.

Lemma is_space2_low_r (c d : ascii) : low d = true -> is_space2 c d = false.
Proof. intros H. unfold is_space2. high_out H. Qed.

Lemma is_space3_low_l (c d e : ascii) :
  low c = true -> is_space3 c d e = false.
Proof. intros H. unfold is_space3. high_out H. Qed.

Lemma is_space3_low_m (c d e : ascii) :
  low d = true -> is_space3 c d e = false.
Proof. intros H. unfold is_space3. high_out H. Qed.

Lemma is_space3_low_r (c d e : ascii) :
  low e = true -> is_space3 c d e = false.
Proof. intros H. unfold is_space3. high_out H. Qed.

(** White space up to an ASCII character is white space before it. *)
Lemma all_space_before_low (a b : string) (c : ascii) :
  low c = true -> all_space (a ++ String c b) = true -> all_space a = true.
Proof.
  intros Hc. functional induction (all_space a); cbn [append all_space];
    settle; auto.
  - rewrite (is_space2_low_r _ _ Hc).
    destruct b; [discriminate|]. now rewrite (is_space3_low_m _ _ _ Hc).
  - now rewrite (is_space3_low_r _ _ _ Hc).
  - intros H. apply andb_true_iff in H as [H3 H]. rewrite H3. now apply IHb0.
Qed.

End StripFacts.

Import StripFacts.

(* ================================================================= *)
(** ** More on the section segmenter *)

Module SegmenterMore.

Import Segmenter SegmenterFacts Rewriter Vocabulary.

Lemma set_not_nil (k v : string) (d : dict) : set k v d <> [].
Proof. destruct d as [|[k0 v0] d]; simpl; [|destruct (k0 =? k)%string]; discriminate. Qed.

Lemma fold_store_nil (segs : list (string * list string)) :
  forall d, fold_left store segs d = [] -> segs = [] /\ d = [].
Proof.
  induction segs as [|seg segs IH]; intros d H; simpl in H; [now split|].
  destruct (IH _ H) as [_ E]. now apply set_not_nil in E.
Qed.

Lemma sections_of_content (text : string) :
  flat_map snd (sections_of text) = content_lines text.
Proof. unfold sections_of. now rewrite segments_content. Qed.

Lemma sections_of_well_formed (text : string) :
  Forall well_formed (sections_of text).
Proof.
  apply segments_well_formed; [constructor | apply visible_lines_free].
Qed.

Lemma visible_line_shape (text l : string) :
  In l (visible_lines text) -> nonempty l = true /\ strip l = l.
Proof.
  unfold visible_lines. intros H. apply filter_In in H as [H Hne].
  apply in_map_iff in H as (x & <- & _). split; [exact Hne | apply strip_idem].
Qed.

Lemma content_line_visible (text l : string) :
  In l (content_lines text) -> In l (visible_lines text).
Proof. unfold content_lines. intros H. now apply filter_In in H as [H _]. Qed.

(** X1. The section map is empty exactly when the text has no line that is
    neither blank nor a heading. *)
Theorem no_sections_iff_no_content (text : string) :
  identify_key_sections text = [] <-> content_lines text = [].
Proof.
  rewrite identify_key_sections_segments, <- sections_of_content. split.
  - intros H. apply fold_store_nil in H as [-> _]. reflexivity.
  - intros H. pose proof (sections_of_well_formed text) as W.
    destruct (sections_of text) as [|[k b] segs]; [reflexivity|].
    inversion W as [|? ? [Hb _] _]; subst. cbn [flat_map snd] in H, Hb.
    apply app_eq_nil in H as [H _]. contradiction.
Qed.

Lemma keys_set_present (k v : string) (d : dict) :
  In k (keys d) -> keys (set k v d) = keys d.
Proof.
  induction d as [|[k0 v0] d IH]; simpl; [intros []|].
  destruct (String.eqb_spec k0 k) as [->|N]; [reflexivity|].
  intros [E|H]; [contradiction|]. simpl. now rewrite IH.
Qed.

Lemma keys_set_absent (k v : string) (d : dict) :
  ~ In k (keys d) -> keys (set k v d) = (keys d ++ [k])%list.
Proof.
  intros H. rewrite set_fresh by exact H. unfold keys. now rewrite map_app.
Qed.

Lemma keys_set_cases (k v : string) (d : dict) :
  keys (set k v d) = keys d \/
  (~ In k (keys d) /\ keys (set k v d) = (keys d ++ [k])%list).
Proof.
  destruct (in_dec string_dec k (keys d)) as [H|H].
  - left. now apply keys_set_present.
  - right. split; [exact H | now apply keys_set_absent].
Qed.

Lemma fold_store_keys_NoDup (segs : list (string * list string)) :
  forall d, NoDup (keys d) -> NoDup (keys (fold_left store segs d)).
Proof.
  induction segs as [|[k b] segs IH]; intros d H; simpl; [exact H|].
  apply IH. unfold store. cbn [fst snd].
  destruct (keys_set_cases k (join nl b) d) as [->|[Hk ->]]; [exact H|].
  apply NoDup_app; [exact H | repeat constructor; intros [] |].
  intros x Hx [<-|[]]. contradiction.
Qed.

Lemma fold_store_length (segs : list (string * list string)) :
  forall d,
    List.length (fold_left store segs d) <= List.length d + List.length segs.
Proof.
  induction segs as [|[k b] segs IH]; intros d; simpl; [lia|].
  specialize (IH (store d (k, b))).
  assert (L : List.length (store d (k, b)) <= S (List.length d)).
  { unfold store. cbn [fst snd].
    rewrite <- (length_map fst (set _ _ _)), <- (length_map fst d).
    fold (keys (set k (join nl b) d)). fold (keys d).
    destruct (keys_set_cases k (join nl b) d) as [->|[_ ->]].
    - lia.
    - rewrite List.length_app. simpl. lia. }
  lia.
Qed.

Lemma close_length (cur : string) (buf : list string) :
  List.length (close cur buf) <= 1.
Proof.
  unfold close. destruct buf; [simpl; lia|].
  destruct (nonempty cur); simpl; lia.
Qed.

Lemma segments_length (ls : list string) :
  forall cur buf,
    List.length (segments cur buf ls)
    <= S (List.length (filter is_heading ls)).
Proof.
  induction ls as [|l ls IH]; intros cur buf; cbn [segments filter].
  - pose proof (close_length cur buf). simpl. lia.
  - destruct (is_heading l).
    + rewrite List.length_app. pose proof (close_length cur buf).
      specialize (IH l []). simpl. lia.
    + apply IH.
Qed.

(** X2. The section map has pairwise different keys, none of them empty,
    and at most one entry more than the text has detected heading lines. *)
Theorem section_map_size (text : string) :
  NoDup (keys (identify_key_sections text)) /\
  Forall (fun k => nonempty k = true) (keys (identify_key_sections text)) /\
  List.length (identify_key_sections text)
  <= S (List.length (heading_lines text)).
Proof.
  split; [|split].
  - rewrite identify_key_sections_segments.
    apply fold_store_keys_NoDup. constructor.
  - apply Forall_forall. intros k H.
    apply identify_key_sections_keys in H as [->|H]; [reflexivity|].
    unfold heading_lines in H. apply filter_In in H as [H _].
    now apply visible_line_shape in H.
  - rewrite identify_key_sections_segments.
    pose proof (fold_store_length (sections_of text) []) as L.
    pose proof (segments_length (visible_lines text) "Introduction" []) as M.
    unfold sections_of, heading_lines in *. simpl in L. lia.
Qed.

Lemma set_entries (k v : string) (d : dict) (k' v' : string) :
  In (k', v') (set k v d) -> (k', v') = (k, v) \/ In (k', v') d.
Proof.
  induction d as [|[k0 v0] d IH]; simpl.
  - intros [H|[]]. now left.
  - destruct (String.eqb_spec k0 k) as [->|N]; simpl.
    + intros [H|H]; [left | right; right]; congruence || assumption.
    + intros [H|H]; [right; now left|].
      destruct (IH H); [now left | right; now right].
Qed.

Lemma fold_store_entries (segs : list (string * list string)) :
  forall d k v,
    In (k, v) (fold_left store segs d) ->
    In (k, v) d \/ exists b, In (k, b) segs /\ v = join nl b.
Proof.
  induction segs as [|[k0 b0] segs IH]; intros d k v H; simpl in *.
  - now left.
  - destruct (IH _ _ _ H) as [H'|(b & Hb & ->)].
    + unfold store in H'. cbn [fst snd] in H'.
      apply set_entries in H' as [[= -> ->]|H']; [|now left].
      right. exists b0. split; [now left | reflexivity].
    + right. exists b. split; [now right | reflexivity].
Qed.

(** Every entry of the map is a section of the text, joined. *)
Lemma entry_section (text k v : string) :
  In (k, v) (identify_key_sections text) ->
  exists b, In (k, b) (sections_of text) /\ v = join nl b /\
            split_on newline v = b /\ b <> [] /\
            incl b (content_lines text).
Proof.
  rewrite identify_key_sections_segments. intros H.
  apply fold_store_entries in H as [[]|(b & Hb & ->)].
  pose proof (proj1 (Forall_forall _ _) (sections_of_well_formed text) _ Hb)
    as [Hne Hfree].
  cbn [snd] in Hne, Hfree.
  exists b. repeat split; [exact Hb | now apply split_join | exact Hne|].
  intros l Hl. rewrite <- sections_of_content.
  apply in_flat_map. exists (k, b). now split.
Qed.

Lemma stored_body_not_blank (text k v : string) :
  In (k, v) (identify_key_sections text) -> all_space v = false.
Proof.
  intros H. destruct (entry_section _ _ _ H) as (b & _ & -> & _ & Hne & Hin).
  destruct b as [|l b]; [contradiction|].
  assert (Hl : all_space l = false).
  { apply not_blank_strip.
    destruct (visible_line_shape text l) as [Hn ->];
      [apply content_line_visible, Hin; now left | exact Hn]. }
  destruct b as [|l' b]; [exact Hl|].
  change (join nl (l :: l' :: b))
    with (l ++ String newline (join nl (l' :: b))).
  destruct (all_space (l ++ String newline (join nl (l' :: b)))) eqn:E;
    [|reflexivity].
  apply all_space_before_low in E; [|reflexivity]. now rewrite E in Hl.
Qed.

(** X3. Whatever the headings, every body line stored in the map is a line
    of the text that is neither blank nor a heading, and no stored body is
    blank. *)
Theorem stored_lines_sound (text : string) :
  incl (body_lines (identify_key_sections text)) (content_lines text) /\
  Forall (fun entry => all_space (snd entry) = false)
         (identify_key_sections text).
Proof.
  split.
  - intros l H. unfold body_lines in H.
    apply in_flat_map in H as ([k v] & Hkv & Hl). cbn [snd] in Hl.
    destruct (entry_section _ _ _ Hkv) as (b & _ & _ & E & _ & Hin).
    rewrite E in Hl. now apply Hin.
  - apply Forall_forall. intros [k v] H. cbn [snd].
    eapply stored_body_not_blank, H.
Qed.

Lemma filter_all {A : Type} (f : A -> bool) (l : list A) :
  Forall (fun x => f x = true) l -> filter f l = l.
Proof.
  induction 1 as [|x l Hx _ IH]; simpl; [reflexivity|]. now rewrite Hx, IH.
Qed.

Lemma map_fixed {A : Type} (f : A -> A) (l : list A) :
  Forall (fun x => f x = x) l -> map f l = l.
Proof.
  induction 1 as [|x l Hx _ IH]; simpl; [reflexivity|]. now rewrite Hx, IH.
Qed.

Lemma visible_lines_normal_form (text : string) :
  visible_lines (normal_form text) = visible_lines text.
Proof.
  unfold normal_form.
  destruct (visible_lines text) as [|l ls] eqn:E; [reflexivity|].
  rewrite <- E. unfold visible_lines at 1.
  assert (S : split_on newline (join nl (visible_lines text))
              = visible_lines text).
  { apply split_join; [rewrite E; discriminate | apply visible_lines_free]. }
  rewrite S, map_fixed, filter_all; [reflexivity| |];
    apply Forall_forall; intros x Hx; now apply visible_line_shape in Hx.
Qed.

(** X4. Blank lines and the white space around a line do not count: the
    text whose lines are stripped and whose blank lines are dropped gets
    the same section map. *)
Theorem identify_key_sections_normal_form (text : string) :
  identify_key_sections (normal_form text) = identify_key_sections text.
Proof.
  rewrite !identify_key_sections_segments. unfold sections_of.
  now rewrite visible_lines_normal_form.
Qed.

End SegmenterMore.

(* ================================================================= *)
(** ** The classifier's order and the extractors *)

Module ClassifierMore.

Import Classifier Vocabulary Extractor.

Lemma contains_inside (kw before s after : string) :
  contains kw s = true -> contains kw (before ++ s ++ after) = true.
Proof.
  intros H. apply contains_split in H as (pre & post & ->).
  replace (before ++ (pre ++ kw ++ post) ++ after)
    with ((before ++ pre) ++ kw ++ (post ++ after))
    by (now rewrite !app_assoc).
  apply contains_app.
Qed.

Section Growing.

(** [s'] has every keyword [s] has. *)
Variables s s' : string.
Hypothesis grows : forall kw, contains kw s = true -> contains kw s' = true.

Lemma any_in_grows (keywords : list string) :
  any_in keywords s = true -> any_in keywords s' = true.
Proof.
  unfold any_in. intros H. apply existsb_exists in H as (kw & Hin & Hkw).
  apply existsb_exists. exists kw. split; [exact Hin | now apply grows].
Qed.

Lemma match_index_grows (rs : list (list string * string)) :
  match_index rs s' <= match_index rs s.
Proof.
  induction rs as [|[keywords label] rs IH]; simpl; [lia|].
  destruct (any_in keywords s) eqn:E.
  - now rewrite (any_in_grows _ E).
  - destruct (any_in keywords s'); lia.
Qed.

End Growing.

Lemma first_match_index (rs : list (list string * string)) (s : string) :
  first_match rs s = nth (match_index rs s) (map snd rs ++ [fallback]) fallback.
Proof.
  induction rs as [|[keywords label] rs IH]; simpl; [reflexivity|].
  destruct (any_in keywords s); [reflexivity | exact IH].
Qed.

Lemma match_index_bound (rs : list (list string * string)) (s : string) :
  match_index rs s <= List.length rs.
Proof.
  induction rs as [|[keywords label] rs IH]; simpl; [lia|].
  destruct (any_in keywords s); lia.
Qed.

Lemma priority_nth (i : nat) :
  i <= 6 -> priority (nth i document_types fallback) = i.
Proof.
  intros H. do 7 (destruct i as [|i]; [reflexivity|]). lia.
Qed.

Lemma identify_document_type_index (text : string) :
  identify_document_type text
  = nth (match_index rules (lower text)) document_types fallback /\
  match_index rules (lower text) <= 6.
Proof.
  split.
  - change (identify_document_type text) with (first_match rules (lower text)).
    apply first_match_index.
  - apply (match_index_bound rules).
Qed.

Lemma priority_inside (before text after : string) :
  priority (identify_document_type (before ++ text ++ after))
  <= priority (identify_document_type text).
Proof.
  destruct (identify_document_type_index text) as [-> B].
  destruct (identify_document_type_index (before ++ text ++ after)) as [-> B'].
  rewrite !priority_nth by assumption.
  apply match_index_grows. intros kw.
  rewrite !lower_app. apply contains_inside.
Qed.

(** X5. Text around a text can only move its type up the classifier's
    order: a text that contains another one never ranks below it, and a
    text that contains a "Rental Agreement" is a "Rental Agreement". *)
Theorem identify_document_type_inside (before text after : string) :
  priority (identify_document_type (before ++ text ++ after))
  <= priority (identify_document_type text) /\
  (identify_document_type text = "Rental Agreement" ->
   identify_document_type (before ++ text ++ after) = "Rental Agreement").
Proof.
  split; [apply priority_inside|].
  intros H. pose proof (priority_inside before text after) as P.
  rewrite H in P. change (priority "Rental Agreement") with 0 in P.
  destruct (identify_document_type_index (before ++ text ++ after)) as [E B].
  rewrite E in *. rewrite priority_nth in P by assumption.
  now replace (match_index rules (lower (before ++ text ++ after))) with 0
    by lia.
Qed.

Lemma identify_document_type_inside_witness :
  identify_document_type
    ("Loan terms follow. " ++ "The tenant pays." ++ " Employment ends.")
  = "Rental Agreement".
Proof.
  apply (proj2 (identify_document_type_inside
                  "Loan terms follow. " "The tenant pays." " Employment ends.")).
  reflexivity.
Defined.

(** *** The extractors *)

Lemma extract_from (pages : list string) :
  forall acc,
    fold_left (fun text page => text ++ page ++ nl) pages acc
    = acc ++ fold_left (fun text page => text ++ page ++ nl) pages "".
Proof.
  induction pages as [|page pages IH]; intros acc; simpl.
  - now rewrite app_empty_r.
  - rewrite IH, (IH (page ++ nl)). now rewrite !app_assoc.
Qed.

Lemma extract_text_from_pdf_cons (page : string) (pages : list string) :
  extract_text_from_pdf (page :: pages)
  = page ++ String newline (extract_text_from_pdf pages).
Proof.
  unfold extract_text_from_pdf. simpl. rewrite extract_from.
  now rewrite app_assoc.
Qed.

Lemma extract_lines (pages : list string) :
  split_on newline (extract_text_from_pdf pages)
  = (flat_map (split_on newline) pages ++ [""])%list.
Proof.
  induction pages as [|page pages IH]; [reflexivity|].
  rewrite extract_text_from_pdf_cons, split_on_app, IH.
  cbn [flat_map]. now rewrite <- List.app_assoc.
Qed.

Lemma lines_of_single_lines (ps : list string) :
  Forall (fun p => mem_char newline p = false) ps ->
  flat_map (split_on newline) ps = ps.
Proof.
  induction 1 as [|p ps Hp _ IH]; [reflexivity|].
  cbn [flat_map]. now rewrite (split_on_no_sep _ _ Hp), IH.
Qed.

(** X6. The lines of an extracted PDF text are the lines of its pages, page
    after page, and one empty line at the end; the lines of an extracted
    DOCX text whose paragraphs hold no line feed are its paragraphs and one
    empty line. *)
Theorem extracted_lines :
  (forall pages,
      split_on newline (extract_text_from_pdf pages)
      = (flat_map (split_on newline) pages ++ [""])%list) /\
  (forall paragraphs,
      Forall (fun p => mem_char newline p = false) paragraphs ->
      split_on newline (extract_text_from_docx paragraphs)
      = (paragraphs ++ [""])%list).
Proof.
  split; [exact extract_lines|].
  intros paragraphs H.
  change (extract_text_from_docx paragraphs)
    with (extract_text_from_pdf paragraphs).
  now rewrite extract_lines, lines_of_single_lines.
Qed.

Lemma extracted_lines_witness :
  split_on newline
    (extract_text_from_docx ["PARTIES"; "Ann and Bob"; ""; "Rent is due."])
  = ["PARTIES"; "Ann and Bob"; ""; "Rent is due."; ""].
Proof.
  apply (proj2 extracted_lines ["PARTIES"; "Ann and Bob"; ""; "Rent is due."]).
  repeat constructor.
Defined.

Lemma page_inside (page : string) (pages : list string) :
  In page pages ->
  exists before after,
    extract_text_from_pdf pages = before ++ page ++ after.
Proof.
  induction pages as [|p pages IH]; [intros []|].
  rewrite extract_text_from_pdf_cons. intros [->|H].
  - now exists "", (String newline (extract_text_from_pdf pages)).
  - destruct (IH H) as (before & after & ->).
    exists (p ++ String newline before), after. now rewrite !app_assoc.
Qed.

(** X7. A document never ranks below one of its pages or paragraphs in
    the classifier's order: a keyword on one page decides for the whole
    document unless another page has a keyword of a type before it. *)
Theorem identify_document_type_pages (page : string) (pages : list string) :
  In page pages ->
  priority (identify_document_type (extract_text_from_pdf pages))
  <= priority (identify_document_type page) /\
  priority (identify_document_type (extract_text_from_docx pages))
  <= priority (identify_document_type page).
Proof.
  intros H.
  change (extract_text_from_docx pages) with (extract_text_from_pdf pages).
  destruct (page_inside _ _ H) as (before & after & ->).
  split; apply priority_inside.
Qed.

Lemma identify_document_type_pages_witness :
  priority (identify_document_type
              (extract_text_from_pdf ["Cover page"; "The Borrower repays."]))
  <= priority (identify_document_type "The Borrower repays.").
Proof.
  apply (identify_document_type_pages "The Borrower repays.").
  right; left; reflexivity.
Defined.

End ClassifierMore.

(* ================================================================= *)
(** ** More on the clause rewriter *)

Module RewriterMore.

Import Segmenter Rewriter Vocabulary RewriterFacts SegmenterMore.

Lemma nonempty_app_l (a b : string) :
  nonempty a = true -> nonempty (a ++ b) = true.
Proof. destruct a; [discriminate | reflexivity]. Qed.

(** A substitution with a replacement that is not empty never empties a
    text. *)
Lemma sub_from_nonempty (wb : bool) (pat repl : string)
      (prev : option ascii) (s : string) :
  nonempty repl = true -> nonempty s = true ->
  nonempty (sub_from wb pat repl prev 0 s) = true.
Proof.
  intros Hr Hs. destruct s as [|c s]; [discriminate|]. cbn [sub_from].
  destruct (match_at wb pat prev (String c s)); [|reflexivity].
  now apply nonempty_app_l.
Qed.

Lemma fold_nonempty {A : Type} (f : string -> A -> string) (l : list A) :
  (forall t e, In e l -> nonempty t = true -> nonempty (f t e) = true) ->
  forall t, nonempty t = true -> nonempty (fold_left f l t) = true.
Proof.
  induction l as [|e l IH]; intros Hf t Ht; simpl; [exact Ht|].
  apply IH.
  - intros t' e' Hin. apply Hf. now right.
  - apply Hf; [now left | exact Ht].
Qed.

Lemma annotate_terms_nonempty (text : string) :
  nonempty text = true -> nonempty (annotate_terms text) = true.
Proof.
  apply fold_nonempty. intros t e _ Ht.
  now apply sub_from_nonempty.
Qed.

Lemma replace_patterns_nonempty (text : string) :
  nonempty text = true -> nonempty (replace_patterns text) = true.
Proof.
  apply fold_nonempty. intros t e Hin Ht.
  apply sub_from_nonempty; [|exact Ht].
  assert (F : forallb (fun e => nonempty (snd e)) patterns = true)
    by reflexivity.
  exact (proj1 (forallb_forall _ _) F e Hin).
Qed.

Lemma split_sentences_of_text (s : string) (prev : option ascii) :
  nonempty s = true ->
  exists p ps,
    split_sentences_from prev false s = p :: ps /\
    (nonempty p = true \/ ps <> []).
Proof.
  destruct s as [|c s]; [discriminate|]. intros _.
  cbn [split_sentences_from]. rewrite andb_false_r.
  destruct ((c =? space)%char && is_terminator prev).
  - destruct (RiskScannerFacts.split_sentences_from_cons s (Some c) true)
      as (q & qs & ->).
    exists "", (q :: qs). split; [reflexivity | right; discriminate].
  - destruct (split_sentences_from (Some c) false s) as [|q qs];
      eexists; eexists; (split; [reflexivity | now left]).
Qed.

Lemma break_sentence_shape (x : string) :
  break_sentence x = [x] \/ exists a b l, break_sentence x = a :: b :: l.
Proof.
  unfold break_sentence.
  destruct (25 <? List.length (split_ws x))%nat; [|now left].
  destruct (split_clauses x) as [|a [|b l]]; cbn; [now left | now left|].
  right. now exists a, b, l.
Qed.

Lemma join_two_nonempty (a b : string) (l : list string) :
  nonempty (join ". " (a :: b :: l)) = true.
Proof.
  change (join ". " (a :: b :: l)) with (a ++ ". " ++ join ". " (b :: l)).
  destruct a; reflexivity.
Qed.

Lemma rejoined_nonempty (p : string) (ps : list string) :
  nonempty p = true \/ ps <> [] ->
  nonempty (join ". " (flat_map break_sentence (p :: ps))) = true.
Proof.
  intros H. cbn [flat_map].
  destruct (break_sentence_shape p) as [->|(a & b & l & ->)].
  - destruct ps as [|q ps].
    + destruct H as [H|H]; [exact H | contradiction].
    + cbn [flat_map app].
      destruct (break_sentence_shape q) as [->|(a & b & l & ->)];
        apply join_two_nonempty.
  - apply join_two_nonempty.
Qed.

(** The rewriter gives something for every text that is not blank. *)
Lemma simplify_legal_text_nonempty (text : string) :
  all_space text = false -> nonempty (simplify_legal_text text) = true.
Proof.
  intros H. unfold simplify_legal_text.
  rewrite (strip_not_blank _ H). cbn [negb].
  assert (Ht : nonempty text = true) by (destruct text; [discriminate H | reflexivity]).
  apply annotate_terms_nonempty, replace_patterns_nonempty in Ht.
  destruct (split_sentences_of_text _ None Ht) as (p & ps & E & Hp).
  unfold split_sentences. rewrite E. now apply rejoined_nonempty.
Qed.

(** X8. The clause rewriter returns the empty string for blank input
    only: a text with a character that is not white space always gets a
    rendering that is not empty. *)
Theorem simplify_legal_text_empty_iff (text : string) :
  simplify_legal_text text = "" <-> all_space text = true.
Proof.
  split.
  - intros H. destruct (all_space text) eqn:E; [reflexivity|].
    apply simplify_legal_text_nonempty in E. rewrite H in E. discriminate E.
  - intros H. unfold simplify_legal_text. now rewrite (strip_all_space _ H).
Qed.

Lemma replace_no_boilerplate (entries : list (string * string)) :
  forall text,
    existsb (fun entry => occurs_from false (fst entry) None text) entries
    = false ->
    fold_left
      (fun simplified_text entry =>
         sub_literal (fst entry) (snd entry) simplified_text)
      entries text
    = text.
Proof.
  induction entries as [|[pat repl] entries IH]; intros text H; [reflexivity|].
  cbn [existsb fst] in H. apply orb_false_iff in H as [Hpat Hrest].
  cbn [fold_left fst snd]. unfold sub_literal at 2.
  rewrite sub_from_no_match by exact Hpat. now apply IH.
Qed.

Lemma split_no_boundary (s : string) :
  forall prev,
    has_boundary prev s = false -> split_sentences_from prev false s = [s].
Proof.
  induction s as [|c s IH]; intros prev H; [reflexivity|].
  cbn [has_boundary] in H. apply orb_false_iff in H as [Hc Hs].
  cbn [split_sentences_from]. rewrite andb_false_r, Hc.
  now rewrite (IH _ Hs).
Qed.

(** X9. Plain text passes unchanged: a text of ASCII characters that is
    not blank, has no jargon term, no boilerplate phrase, no space after a
    full stop, an exclamation mark or a question mark, and at most 25 words
    is returned as it is. *)
Theorem simplify_legal_text_plain (text : string) :
  is_ascii text = true ->
  all_space text = false ->
  has_jargon text = false ->
  has_boilerplate text = false ->
  has_boundary None text = false ->
  (List.length (split_ws text) <=? 25)%nat = true ->
  simplify_legal_text text = text.
Proof.
  intros _ Hblank Hjargon Hboiler Hbound Hshort.
  unfold simplify_legal_text.
  rewrite (strip_not_blank _ Hblank). cbn [negb].
  unfold annotate_terms. rewrite annotate_no_jargon by exact Hjargon.
  unfold replace_patterns. rewrite replace_no_boilerplate by exact Hboiler.
  unfold split_sentences. rewrite split_no_boundary by exact Hbound.
  cbn [flat_map]. unfold break_sentence.
  apply Nat.leb_le in Hshort.
  destruct (Nat.ltb_spec 25 (List.length (split_ws text))) as [L|_]; [lia|].
  reflexivity.
Qed.

Lemma simplify_legal_text_plain_witness :
  simplify_legal_text "The tenant pays the rent on the first day of each month."
  = "The tenant pays the rent on the first day of each month.".
Proof. apply simplify_legal_text_plain; reflexivity. Defined.

(** X10. Every section of the map has a simplified rendering that is not
    empty: the page never shows an empty explanation in a section tab. *)
Theorem section_explanations_nonempty (text : string) :
  Forall (fun entry => nonempty (simplify_legal_text (snd entry)) = true)
         (identify_key_sections text).
Proof.
  apply Forall_forall. intros [k v] H. cbn [snd].
  apply simplify_legal_text_nonempty. eapply stored_body_not_blank, H.
Qed.

End RewriterMore.

(* ================================================================= *)
(** ** More on the risk scanner *)

Module RiskScannerMore.

Import RiskScanner Vocabulary Patterns Page.

Lemma lower_char_newline (c : ascii) :
  (lower_char c =? newline)%char = (c =? newline)%char.
Proof. destruct c as [[] [] [] [] [] [] [] []]; reflexivity. Qed.

Lemma starts_with_lower (p : string) :
  lower p = p ->
  forall s, starts_with p (lower s) = starts_with_ci p s.
Proof.
  induction p as [|a p IH]; intros Hp s; [now destruct s|].
  simpl in Hp. injection Hp as Ha Hp.
  destruct s as [|b s]; [reflexivity|]. simpl.
  now rewrite Ha, (IH Hp).
Qed.

Lemma drop_lower (n : nat) :
  forall s, drop n (lower s) = lower (drop n s).
Proof.
  induction n as [|n IH]; intros s; [reflexivity|].
  destruct s as [|c s]; [reflexivity | apply IH].
Qed.

Lemma gap_then_lower (b : string) :
  lower b = b ->
  forall s, gap_then false b (lower s) = gap_then true b s.
Proof.
  intros Hb s. induction s as [|c s IH].
  - cbn [lower gap_then prefix_of]. now rewrite <- (starts_with_lower b Hb "").
  - cbn [lower gap_then prefix_of].
    rewrite <- IH, lower_char_newline.
    now rewrite <- (starts_with_lower b Hb (String c s)).
Qed.

Lemma branch_at_lower (br : branch) (s : string) :
  branch_is_lower br = true ->
  branch_at false br (lower s) = branch_at true br s.
Proof.
  destruct br as [a|a b]; cbn [branch_is_lower branch_at prefix_of].
  - intros H. apply String.eqb_eq in H. now apply starts_with_lower.
  - intros H. apply andb_true_iff in H as [Ha Hb].
    apply String.eqb_eq in Ha, Hb.
    now rewrite starts_with_lower, drop_lower, gap_then_lower.
Qed.

Lemma search_branch_lower (br : branch) (s : string) :
  branch_is_lower br = true ->
  search_branch false br (lower s) = search_branch true br s.
Proof.
  intros H. induction s as [|c s IH].
  - cbn [lower search_branch]. now rewrite <- (branch_at_lower br "" H).
  - cbn [lower search_branch].
    now rewrite <- IH, <- (branch_at_lower br (String c s) H).
Qed.

(** With the case folding of the letters A to Z, searching the lowercased
    text is searching the text with letter case ignored, for a pattern
    written in lower case. *)
Lemma search_lower (r : regex) (s : string) :
  regex_is_lower r = true -> search false r (lower s) = search true r s.
Proof.
  unfold search. induction r as [|br r IH]; [reflexivity|].
  cbn [regex_is_lower forallb existsb]. intros H.
  apply andb_true_iff in H as [Hbr Hr].
  now rewrite search_branch_lower, IH.
Qed.

Lemma identify_risks_from (text : string)
      (rules : list (regex * string * string)) :
  forall acc,
    fold_left
      (fun risks rule =>
         let '(pattern, description, risk_level) := rule in
         if search false pattern (lower text) then
           (risks ++ [mkRisk description risk_level
                        (find_example_clauses text pattern)])%list
         else risks)
      rules acc
    = (acc ++ map (finding text) (filter (fires text) rules))%list.
Proof.
  induction rules as [|[[pattern description] risk_level] rules IH];
    intros acc.
  - simpl. now rewrite app_nil_r.
  - cbn [fold_left filter fires].
    destruct (search false pattern (lower text)).
    + rewrite IH. cbn [map finding]. now rewrite <- List.app_assoc.
    + apply IH.
Qed.

Lemma identify_risks_filter (text : string) :
  identify_risks text = map (finding text) (filter (fires text) risk_patterns).
Proof.
  unfold identify_risks. now rewrite identify_risks_from.
Qed.

Lemma fires_lower (text : string) (rule : regex * string * string) :
  In rule risk_patterns -> fires text rule = fires_ci text rule.
Proof.
  assert (F : forallb (fun rule => regex_is_lower (fst (fst rule)))
                      risk_patterns = true) by reflexivity.
  intros H. apply (proj1 (forallb_forall _ _) F) in H.
  destruct rule as [[pattern description] risk_level].
  cbn [fires fires_ci]. now apply search_lower.
Qed.

(** X11. The findings are the rules of the table whose pattern matches the
    lowercased text, in the order of the table, each once, with the rule's
    description, level and examples. For a text of ASCII characters these
    are the rules whose pattern matches the original text with letter case
    ignored. *)
Theorem identify_risks_rules (text : string) :
  identify_risks text
  = map (finding text) (filter (fires text) risk_patterns) /\
  (is_ascii text = true ->
   identify_risks text
   = map (finding text) (filter (fires_ci text) risk_patterns)).
Proof.
  split; [apply identify_risks_filter|].
  intros _. rewrite identify_risks_filter. f_equal.
  apply filter_ext_in. intros rule. apply fires_lower.
Qed.

Lemma identify_risks_rules_witness :
  identify_risks "The Supplier shall INDEMNIFY the Client."
  = map (finding "The Supplier shall INDEMNIFY the Client.")
        (filter (fires_ci "The Supplier shall INDEMNIFY the Client.")
                risk_patterns).
Proof.
  apply (proj2 (identify_risks_rules
                  "The Supplier shall INDEMNIFY the Client.")).
  reflexivity.
Defined.

Lemma filter_split {A : Type} (f g : A -> bool) (l : list A) :
  Forall (fun x => f x = negb (g x)) l ->
  List.length (filter f l) + List.length (filter g l) = List.length l.
Proof.
  induction 1 as [|x l Hx _ IH]; [reflexivity|]. simpl. rewrite Hx.
  destruct (g x); simpl; lia.
Qed.

Lemma finding_level (text : string) (rule : regex * string * string) :
  level (finding text rule) = snd rule.
Proof. now destruct rule as [[p d] l]. Qed.

Lemma findings_one_column (text : string) :
  Forall (fun r => shown_left r = negb (shown_right r)) (identify_risks text).
Proof.
  rewrite identify_risks_filter. apply Forall_forall. intros r H.
  apply in_map_iff in H as (rule & <- & H). apply filter_In in H as [H _].
  unfold shown_left, shown_right. rewrite finding_level.
  assert (F : forallb
                (fun rule =>
                   Bool.eqb (existsb (String.eqb (snd rule)) ["high"; "medium"])
                            (negb (snd rule =? "low")%string))
                risk_patterns = true) by reflexivity.
  apply (proj1 (forallb_forall _ _) F), Bool.eqb_prop in H. exact H.
Qed.

(** X12. The scanner returns at most ten findings, and the page shows each
    of them in exactly one of its two risk columns: the high and medium
    ones on the left, the low ones on the right. *)
Theorem findings_columns (text : string) :
  List.length (identify_risks text) <= 10 /\
  Forall (fun r => shown_left r = negb (shown_right r)) (identify_risks text) /\
  List.length (left_column (identify_risks text))
  + List.length (right_column (identify_risks text))
  = List.length (identify_risks text).
Proof.
  split; [|split].
  - rewrite identify_risks_filter, length_map.
    apply (filter_length_le (fires text) risk_patterns).
  - apply findings_one_column.
  - apply filter_split, findings_one_column.
Qed.

Lemma collect_examples_firstn (pattern : regex) (sentences : list string) :
  forall examples,
    List.length examples < 3 ->
    collect_examples pattern sentences examples
    = firstn 3 (examples
                ++ map strip (filter (search true pattern) sentences)).
Proof.
  induction sentences as [|sentence rest IH]; intros examples H;
    cbn [collect_examples filter].
  - cbn [map]. rewrite app_nil_r. symmetry. apply firstn_all2. lia.
  - destruct (search true pattern sentence); [|now apply IH].
    cbn [map].
    replace (examples ++ strip sentence :: map strip (filter (search true pattern) rest))%list
      with ((examples ++ [strip sentence])
            ++ map strip (filter (search true pattern) rest))%list
      by (now rewrite <- List.app_assoc).
    destruct (Nat.leb_spec 3 (List.length (examples ++ [strip sentence])))
      as [L|L].
    + assert (E : List.length (examples ++ [strip sentence]) = 3)
        by (rewrite List.length_app in *; simpl in *; lia).
      rewrite firstn_app, E, Nat.sub_diag, firstn_O, app_nil_r.
      symmetry. apply firstn_all2. lia.
    + now apply IH.
Qed.

(** X13. For a text of ASCII characters and a rule of the table, the
    examples of the finding are the first three sentences of the text that
    match the rule's pattern, letter case ignored, stripped, in the order
    of the text; all of them when fewer than three match. *)
Theorem find_example_clauses_first_three (text : string)
        (rule : regex * string * string) :
  is_ascii text = true ->
  In rule risk_patterns ->
  find_example_clauses text (fst (fst rule))
  = firstn 3 (map strip (filter (search true (fst (fst rule)))
                                (split_sentences text))).
Proof.
  intros _ _. unfold find_example_clauses.
  rewrite collect_examples_firstn by (simpl; lia). reflexivity.
Qed.

Lemma find_example_clauses_first_three_witness :
  find_example_clauses
    "We hold harmless.  You INDEMNIFY us. Fees are due."
    [Lit "indemnify"; Lit "hold harmless"]
  = ["We hold harmless."; "You INDEMNIFY us."].
Proof.
  apply (find_example_clauses_first_three
           "We hold harmless.  You INDEMNIFY us. Fees are due."
           ([Lit "indemnify"; Lit "hold harmless"],
            "You might be responsible for paying for damages or losses",
            "high"));
    [reflexivity | now left].
Defined.

End RiskScannerMore.

(* ================================================================= *)
(** ** Download links *)

Module PageFacts.

Import Rewriter Page.

(** Induction over a string three characters at a time. *)
Lemma string_ind3 (P : string -> Prop) :
  P "" ->
  (forall a, P (String a "")) ->
  (forall a b, P (String a (String b ""))) ->
  (forall a b c r, P r -> P (String a (String b (String c r)))) ->
  forall s, P s.
Proof.
  intros H0 H1 H2 H3 s.
  assert (Q : P s /\ (forall a, P (String a s))
              /\ (forall a b, P (String a (String b s)))).
  { induction s as [|c s (IH0 & IH1 & IH2)]; [now repeat split|].
    split; [apply IH1|split; [intros a; apply IH2|]].
    intros a b. now apply H3. }
  exact (proj1 Q).
Qed.

Lemma digit_b64 (n : nat) : is_b64_char (digit n) = true.
Proof. do 64 (destruct n as [|n]; [reflexivity|]). reflexivity. Qed.

Lemma b64_char_no_quote (c : ascii) :
  is_b64_char c = true -> (c =? dquote)%char = false.
Proof.
  intros H. destruct c as [[] [] [] [] [] [] [] []];
    first [reflexivity | discriminate H].
Qed.

Lemma mem_char_all (c : ascii) (s : string) :
  forallb (fun d => negb (d =? c)%char) (list_ascii_of_string s) = true ->
  mem_char c s = false.
Proof.
  induction s as [|d s IH]; simpl; [reflexivity|].
  intros H. apply andb_true_iff in H as [Hd Hs].
  apply negb_true_iff in Hd. now rewrite Hd, IH.
Qed.

Lemma b64encode_chars (content : string) :
  forallb is_b64_char (list_ascii_of_string (b64encode content)) = true.
Proof.
  induction content as [|a|a b|a b c r IH] using string_ind3.
  - reflexivity.
  - destruct a as [a0 a1 a2 a3 a4 a5 a6 a7]. cbn [b64encode encode1].
    cbn [list_ascii_of_string forallb]. now rewrite !digit_b64.
  - destruct a as [a0 a1 a2 a3 a4 a5 a6 a7].
    destruct b as [b0 b1 b2 b3 b4 b5 b6 b7]. cbn [b64encode encode2].
    cbn [list_ascii_of_string forallb]. now rewrite !digit_b64.
  - destruct a as [a0 a1 a2 a3 a4 a5 a6 a7].
    destruct b as [b0 b1 b2 b3 b4 b5 b6 b7].
    destruct c as [c0 c1 c2 c3 c4 c5 c6 c7]. cbn [b64encode encode3].
    cbn [list_ascii_of_string forallb]. now rewrite !digit_b64, IH.
Qed.

Lemma b64encode_length (content : string) :
  String.length (b64encode content)
  = 4 * ((String.length content + 2) / 3).
Proof.
  induction content as [|a|a b|a b c r IH] using string_ind3.
  - reflexivity.
  - now destruct a.
  - now destruct a, b.
  - destruct a, b, c. cbn [b64encode encode3 String.length]. rewrite IH.
    replace (S (S (S (String.length r))) + 2)
      with (String.length r + 2 + 1 * 3) by lia.
    rewrite Nat.div_add by lia. lia.
Qed.

(** X14. The payload of a download link is made of Base64 characters only,
    four for every three bytes of the content, rounded up; whatever the
    content, it holds no double quote that would close the href. *)
Theorem download_link_payload (content : string) :
  forallb is_b64_char (list_ascii_of_string (b64encode content)) = true /\
  String.length (b64encode content) = 4 * ((String.length content + 2) / 3) /\
  mem_char dquote (b64encode content) = false /\
  forall filename text,
    create_download_link content filename text
    = "<a href=" ++ quote ++ "data:file/txt;base64," ++ b64encode content
      ++ quote ++ " download=" ++ quote ++ filename ++ quote
      ++ " class=" ++ quote ++ "icon-button" ++ quote ++ ">"
      ++ inbox ++ " " ++ text ++ "</a>".
Proof.
  split; [apply b64encode_chars|split; [apply b64encode_length|split]];
    [|reflexivity].
  apply mem_char_all. pose proof (b64encode_chars content) as H.
  induction (list_ascii_of_string (b64encode content)) as [|d l IH];
    [reflexivity|].
  cbn [forallb] in *. apply andb_true_iff in H as [Hd Hl].
  now rewrite (b64_char_no_quote _ Hd), IH.
Qed.

(** *** Reading the payload back *)

Lemma value_of_digit (b5 b4 b3 b2 b1 b0 : bool) :
  value_of (digit (sextet b5 b4 b3 b2 b1 b0)) = Some (sextet b5 b4 b3 b2 b1 b0).
Proof. destruct b5, b4, b3, b2, b1, b0; reflexivity. Qed.

Lemma digit_not_pad (b5 b4 b3 b2 b1 b0 : bool) :
  (digit (sextet b5 b4 b3 b2 b1 b0) =? pad)%char = false.
Proof. destruct b5, b4, b3, b2, b1, b0; reflexivity. Qed.

Lemma first_byte (a7 a6 a5 a4 a3 a2 a1 a0 x3 x2 x1 x0 : bool) :
  byte (sextet a7 a6 a5 a4 a3 a2 * 4 + sextet a1 a0 x3 x2 x1 x0 / 16)
  = Ascii a0 a1 a2 a3 a4 a5 a6 a7.
Proof.
  replace (sextet a1 a0 x3 x2 x1 x0 / 16)
    with (sextet false false false false a1 a0)
    by (destruct a1, a0, x3, x2, x1, x0; reflexivity).
  destruct a7, a6, a5, a4, a3, a2, a1, a0; reflexivity.
Qed.

Lemma second_byte (x1 x0 b7 b6 b5 b4 b3 b2 b1 b0 y1 y0 : bool) :
  byte (sextet x1 x0 b7 b6 b5 b4 mod 16 * 16 + sextet b3 b2 b1 b0 y1 y0 / 4)
  = Ascii b0 b1 b2 b3 b4 b5 b6 b7.
Proof.
  replace (sextet x1 x0 b7 b6 b5 b4 mod 16)
    with (sextet false false b7 b6 b5 b4)
    by (destruct x1, x0, b7, b6, b5, b4; reflexivity).
  replace (sextet b3 b2 b1 b0 y1 y0 / 4)
    with (sextet false false b3 b2 b1 b0)
    by (destruct b3, b2, b1, b0, y1, y0; reflexivity).
  destruct b7, b6, b5, b4, b3, b2, b1, b0; reflexivity.
Qed.

Lemma third_byte (x3 x2 x1 x0 c7 c6 c5 c4 c3 c2 c1 c0 : bool) :
  byte (sextet x3 x2 x1 x0 c7 c6 mod 4 * 64 + sextet c5 c4 c3 c2 c1 c0)
  = Ascii c0 c1 c2 c3 c4 c5 c6 c7.
Proof.
  replace (sextet x3 x2 x1 x0 c7 c6 mod 4)
    with (sextet false false false false c7 c6)
    by (destruct x3, x2, x1, x0, c7, c6; reflexivity).
  destruct c7, c6, c5, c4, c3, c2, c1, c0; reflexivity.
Qed.

Lemma b64decode_b64encode (content : string) :
  b64decode (b64encode content) = Some content.
Proof.
  induction content as [|a|a b|a b c r IH] using string_ind3.
  - reflexivity.
  - destruct a as [a0 a1 a2 a3 a4 a5 a6 a7].
    cbn [b64encode encode1 b64decode].
    rewrite !value_of_digit, first_byte. reflexivity.
  - destruct a as [a0 a1 a2 a3 a4 a5 a6 a7].
    destruct b as [b0 b1 b2 b3 b4 b5 b6 b7].
    cbn [b64encode encode2 b64decode].
    rewrite !value_of_digit, digit_not_pad, first_byte, second_byte.
    reflexivity.
  - destruct a as [a0 a1 a2 a3 a4 a5 a6 a7].
    destruct b as [b0 b1 b2 b3 b4 b5 b6 b7].
    destruct c as [c0 c1 c2 c3 c4 c5 c6 c7].
    cbn [b64encode encode3 b64decode].
    rewrite !value_of_digit, !digit_not_pad, IH.
    now rewrite first_byte, second_byte, third_byte.
Qed.

(** X15. Two different contents never give the same link payload: the
    content can be read back from the payload. *)
Theorem download_link_faithful (content content' : string) :
  b64encode content = b64encode content' -> content = content'.
Proof.
  intros H. pose proof (b64decode_b64encode content) as E.
  rewrite H, b64decode_b64encode in E. now injection E.
Qed.

Lemma download_link_faithful_witness :
  "SUMMARY:" = "SUMMARY:".
Proof. apply (download_link_faithful "SUMMARY:" "SUMMARY:"). reflexivity. Defined.

End PageFacts.

(* ================================================================= *)
(** ** More on the summary and on file names *)

Module SummaryMore.

Import Rewriter RiskScanner Summary Vocabulary.

Lemma section_bullets_lines (shorten : string -> string) (sections : dict) :
  forall summary,
    section_bullets shorten sections summary
    = summary ++ fold_right append "" (map (bullet_line shorten) sections).
Proof.
  unfold section_bullets.
  induction sections as [|entry sections IH]; intros summary;
    cbn [fold_left map fold_right].
  - now rewrite app_empty_r.
  - rewrite IH. unfold bullet_line. now rewrite !app_assoc.
Qed.

Lemma generate_summary_head (shorten : string -> string)
      (document_type : string) (sections : dict) :
  exists rest,
    generate_summary shorten document_type sections
    = summary_head shorten document_type sections ++ rest.
Proof.
  unfold generate_summary.
  fold (summary_head shorten document_type sections).
  destruct (document_type =? "Rental Agreement")%string;
    [eexists; apply app_assoc|].
  destruct (document_type =? "Loan Agreement")%string;
    [eexists; apply app_assoc|].
  destruct (document_type =? "Terms of Service")%string;
    [eexists; apply app_assoc|].
  now eexists.
Qed.

Lemma line_inside (shorten : string -> string) (entry : string * string)
      (sections : dict) :
  In entry sections ->
  exists pre post,
    fold_right append "" (map (bullet_line shorten) sections)
    = pre ++ bullet_line shorten entry ++ post.
Proof.
  induction sections as [|e sections IH]; [intros []|].
  intros [->|H]; cbn [map fold_right].
  - now exists "", (fold_right append "" (map (bullet_line shorten) sections)).
  - destruct (IH H) as (pre & post & ->).
    exists (bullet_line shorten e ++ pre), post. now rewrite !app_assoc.
Qed.

(** X16. A summary starts with the opening sentence that names the type,
    followed by one bullet line for every section of the map, in the map's
    order; so every section of the map is listed in the summary. *)
Theorem generate_summary_lists_sections
        (shorten : string -> string) (document_type : string)
        (sections : dict) :
  starts_with
    (opening document_type
     ++ fold_right append "" (map (bullet_line shorten) sections))
    (generate_summary shorten document_type sections) = true /\
  Forall (fun entry =>
            substring_of (bullet_line shorten entry)
                         (generate_summary shorten document_type sections))
         sections.
Proof.
  destruct (generate_summary_head shorten document_type sections) as [rest E].
  assert (H : summary_head shorten document_type sections
              = opening document_type
                ++ fold_right append "" (map (bullet_line shorten) sections))
    by apply section_bullets_lines.
  rewrite E, H. split; [apply starts_with_app|].
  apply Forall_forall. intros entry Hin.
  destruct (line_inside shorten entry sections Hin) as (pre & post & ->).
  exists (opening document_type ++ pre), (post ++ rest).
  now rewrite !app_assoc.
Qed.

End SummaryMore.

Module PipelineMore.

Import Pipeline PipelineFacts.




End PipelineMore.

(* ================================================================= *)
(** ** Examples match their pattern *)

Module ExamplesMatch.

Import RiskScanner Vocabulary Ends RiskScannerMore.

Lemma plain_lower (c : ascii) : plain (lower_char c) = plain c.
Proof. destruct c as [[] [] [] [] [] [] [] []]; reflexivity. Qed.

Lemma same_letter_plain (a c : ascii) :
  (lower_char a =? lower_char c)%char = true -> plain a = plain c.
Proof.
  intros H. apply Ascii.eqb_eq in H.
  now rewrite <- (plain_lower a), H, plain_lower.
Qed.

(** A literal that starts on a plain character does not start on a
    character that is not plain. *)
Lemma solid_head_no_match (a : string) (c : ascii) (s : string) :
  solid (String.get 0 a) = true -> plain c = false ->
  starts_with_ci a (String c s) = false.
Proof.
  destruct a as [|a0 a]; [discriminate|]. cbn [String.get solid].
  intros Ha Hc. cbn [starts_with_ci].
  destruct (lower_char a0 =? lower_char c)%char eqn:E; [|reflexivity].
  apply same_letter_plain in E. rewrite E, Hc in Ha. discriminate Ha.
Qed.

Lemma search_branch_tail (br : branch) (c : ascii) (s : string) :
  head_solid br = true -> plain c = false ->
  search_branch true br (String c s) = true -> search_branch true br s = true.
Proof.
  intros Hbr Hc H. cbn [search_branch] in H.
  apply orb_true_iff in H as [H|H]; [|exact H].
  destruct br as [a|a b]; cbn [branch_at prefix_of head_solid] in *;
    rewrite (solid_head_no_match a c s Hbr Hc) in H; discriminate H.
Qed.

(** The bytes of white space are not plain characters. *)
Lemma is_space_plain (c : ascii) : is_space c = true -> plain c = false.
Proof. intros H. unfold plain. rewrite H. apply andb_false_r. Qed.

Lemma low_plain (c : ascii) : low c = false -> plain c = false.
Proof. intros H. unfold plain. now rewrite H. Qed.

Lemma code_in_high (lo hi : nat) (c : ascii) :
  128 <= lo -> code_in lo hi c = true -> low c = false.
Proof.
  unfold low, code_in. intros Hlo H. apply andb_true_iff in H as [H _].
  apply Nat.leb_le in H. apply Nat.ltb_ge. lia.
Qed.

Lemma is_space2_plain (c d : ascii) :
  is_space2 c d = true -> plain c = false /\ plain d = false.
Proof.
  intros H. split; apply low_plain.
  - destruct (low c) eqn:L; [|reflexivity].
    now rewrite (is_space2_low_l _ _ L) in H.
  - destruct (low d) eqn:L; [|reflexivity].
    now rewrite (is_space2_low_r _ _ L) in H.
Qed.

Lemma is_space3_plain (c d e : ascii) :
  is_space3 c d e = true ->
  plain c = false /\ plain d = false /\ plain e = false.
Proof.
  intros H. repeat split; apply low_plain.
  - destruct (low c) eqn:L; [|reflexivity].
    now rewrite (is_space3_low_l _ _ _ L) in H.
  - destruct (low d) eqn:L; [|reflexivity].
    now rewrite (is_space3_low_m _ _ _ L) in H.
  - destruct (low e) eqn:L; [|reflexivity].
    now rewrite (is_space3_low_r _ _ _ L) in H.
Qed.

Lemma search_branch_lstrip (br : branch) (s : string) :
  head_solid br = true ->
  search_branch true br s = true -> search_branch true br (lstrip s) = true.
Proof.
  intros Hbr. functional induction (lstrip s); auto; intros H; apply IHs0.
  - apply (search_branch_tail br c); auto using is_space_plain.
  - match goal with E : is_space2 _ _ = true |- _ =>
      apply is_space2_plain in E as [P1 P2] end.
    apply (search_branch_tail br d); [exact Hbr | exact P2|].
    now apply (search_branch_tail br c).
  - match goal with E : is_space3 _ _ _ = true |- _ =>
      apply is_space3_plain in E as (P1 & P2 & P3) end.
    match goal with |- search_branch true br ?r = true =>
      match type of H with
      | search_branch true br (String ?x (String ?y (String ?z r))) = true =>
          apply (search_branch_tail br z); [exact Hbr | exact P3|];
          apply (search_branch_tail br y); [exact Hbr | exact P2|];
          now apply (search_branch_tail br x)
      end
    end.
Qed.

Lemma plain_not_blank (s : string) :
  has_plain s = true -> nonempty (lstrip s) = true.
Proof.
  functional induction (lstrip s); auto; cbn [has_plain]; intros H;
    apply IHs0.
  - now rewrite (is_space_plain c) in H.
  - match goal with E : is_space2 _ _ = true |- _ =>
      apply is_space2_plain in E as [P1 P2] end.
    now rewrite P1, P2 in H.
  - match goal with E : is_space3 _ _ _ = true |- _ =>
      apply is_space3_plain in E as (P1 & P2 & P3) end.
    now rewrite P1, P2, P3 in H.
Qed.

(** The right strip keeps every character up to the last plain one. *)
Lemma rstrip_keeps (c : ascii) (s : string) :
  has_plain (String c s) = true -> rstrip (String c s) = String c (rstrip s).
Proof. intros H. now rewrite rstrip_cons, (plain_not_blank _ H). Qed.

Lemma starts_with_ci_nonempty (a s : string) :
  nonempty a = true -> starts_with_ci a s = true -> nonempty s = true.
Proof. destruct a, s; simpl; congruence. Qed.

Lemma starts_with_ci_cons (a b : ascii) (p s : string) :
  starts_with_ci (String a p) (String b s)
  = (lower_char a =? lower_char b)%char && starts_with_ci p s.
Proof. reflexivity. Qed.

Lemma starts_with_ci_plain (a : string) :
  solid (last_char a) = true ->
  forall s, starts_with_ci a s = true -> has_plain s = true.
Proof.
  induction a as [|a0 a IH]; [discriminate|].
  intros Ha s H. destruct s as [|c s]; [discriminate H|].
  rewrite starts_with_ci_cons in H. apply andb_true_iff in H as [H0 H].
  cbn [has_plain]. destruct a as [|a1 a].
  - cbn [last_char solid] in Ha.
    now rewrite <- (same_letter_plain _ _ H0), Ha.
  - rewrite (IH Ha s H). apply orb_true_r.
Qed.

(** A literal that ends on a plain character still starts the text when
    the text loses its trailing white space. *)
Lemma starts_with_ci_rstrip (a : string) :
  solid (last_char a) = true ->
  forall s, starts_with_ci a s = true -> starts_with_ci a (rstrip s) = true.
Proof.
  induction a as [|a0 a IH]; [discriminate|].
  intros Ha s H.
  pose proof (starts_with_ci_plain _ Ha s H) as Hp.
  destruct s as [|c s]; [discriminate H|].
  rewrite (rstrip_keeps _ _ Hp).
  rewrite starts_with_ci_cons in *. apply andb_true_iff in H as [H0 H].
  rewrite H0. cbn [andb]. destruct a as [|a1 a]; [reflexivity|].
  now apply IH.
Qed.

Lemma tight_nonempty (a : string) : tight a = true -> nonempty a = true.
Proof. destruct a; [discriminate | reflexivity]. Qed.

Lemma tight_last (a : string) : tight a = true -> solid (last_char a) = true.
Proof. unfold tight. intros H. now apply andb_true_iff in H as [_ H]. Qed.

Lemma tight_head (a : string) : tight a = true -> solid (String.get 0 a) = true.
Proof. unfold tight. intros H. now apply andb_true_iff in H as [H _]. Qed.

Lemma gap_then_plain (b : string) :
  tight b = true ->
  forall s, gap_then true b s = true -> has_plain s = true.
Proof.
  intros Hb s. induction s as [|c s IH]; cbn [gap_then prefix_of]; intros H.
  - rewrite orb_false_r in H.
    now apply (starts_with_ci_plain b (tight_last b Hb)).
  - apply orb_true_iff in H as [H|H].
    + now apply (starts_with_ci_plain b (tight_last b Hb)).
    + apply andb_true_iff in H as [_ H]. cbn [has_plain].
      rewrite (IH H). apply orb_true_r.
Qed.

Lemma gap_then_rstrip (b : string) :
  tight b = true ->
  forall s, gap_then true b s = true -> gap_then true b (rstrip s) = true.
Proof.
  intros Hb s. induction s as [|c s IH]; [trivial|].
  intros H. pose proof (gap_then_plain b Hb _ H) as Hp.
  rewrite (rstrip_keeps _ _ Hp).
  cbn [gap_then prefix_of] in *. apply orb_true_iff in H as [H|H].
  - apply starts_with_ci_rstrip in H; [|now apply tight_last].
    rewrite (rstrip_keeps _ _ Hp) in H. now rewrite H.
  - apply andb_true_iff in H as [Hc H].
    rewrite Hc, (IH H). apply orb_true_r.
Qed.

(** Past a literal that ends on a plain character, stripping the text
    strips the rest. *)
Lemma drop_rstrip (a : string) :
  solid (last_char a) = true ->
  forall s,
    starts_with_ci a s = true ->
    drop (String.length a) (rstrip s) = rstrip (drop (String.length a) s).
Proof.
  induction a as [|a0 a IH]; [discriminate|].
  intros Ha s H.
  pose proof (starts_with_ci_plain _ Ha s H) as Hp.
  destruct s as [|c s]; [discriminate H|].
  rewrite (rstrip_keeps _ _ Hp).
  rewrite starts_with_ci_cons in H. apply andb_true_iff in H as [H0 H].
  destruct a as [|a1 a]; [reflexivity|].
  change (drop (String.length (String a0 (String a1 a))) (String c (rstrip s)))
    with (drop (String.length (String a1 a)) (rstrip s)).
  change (drop (String.length (String a0 (String a1 a))) (String c s))
    with (drop (String.length (String a1 a)) s).
  now apply IH.
Qed.

Lemma branch_at_rstrip (br : branch) (s : string) :
  branch_is_tight br = true ->
  branch_at true br s = true -> branch_at true br (rstrip s) = true.
Proof.
  destruct br as [a|a b]; cbn [branch_is_tight branch_at prefix_of].
  - intros Ha. apply starts_with_ci_rstrip. now apply tight_last.
  - intros Hab H. apply andb_true_iff in Hab as [Ha Hb].
    apply andb_true_iff in H as [H1 H2].
    rewrite (starts_with_ci_rstrip a (tight_last a Ha) s H1).
    rewrite (drop_rstrip a (tight_last a Ha) s H1).
    now apply gap_then_rstrip.
Qed.

Lemma branch_at_plain (br : branch) (s : string) :
  branch_is_tight br = true -> branch_at true br s = true ->
  has_plain s = true.
Proof.
  destruct br as [a|a b]; cbn [branch_is_tight branch_at prefix_of].
  - intros Ha. apply starts_with_ci_plain. now apply tight_last.
  - intros Hab H. apply andb_true_iff in Hab as [Ha _].
    apply andb_true_iff in H as [H _].
    now apply (starts_with_ci_plain a (tight_last a Ha)).
Qed.

Lemma search_branch_plain (br : branch) (s : string) :
  branch_is_tight br = true ->
  search_branch true br s = true -> has_plain s = true.
Proof.
  intros Hbr. induction s as [|c s IH]; cbn [search_branch]; intros H.
  - rewrite orb_false_r in H. now apply (branch_at_plain br "").
  - apply orb_true_iff in H as [H|H].
    + now apply (branch_at_plain br).
    + cbn [has_plain]. rewrite (IH H). apply orb_true_r.
Qed.

Lemma has_plain_nonempty (s : string) :
  has_plain s = true -> nonempty s = true.
Proof. destruct s; [discriminate | reflexivity]. Qed.

Lemma search_branch_rstrip (br : branch) (s : string) :
  branch_is_tight br = true ->
  search_branch true br s = true -> search_branch true br (rstrip s) = true.
Proof.
  intros Hbr. induction s as [|c s IH]; [trivial|].
  intros H. pose proof (search_branch_plain br _ Hbr H) as Hp.
  cbn [search_branch] in H. apply orb_true_iff in H as [H|H].
  - apply branch_at_rstrip in H; [|exact Hbr].
    destruct (rstrip (String c s)); cbn [search_branch]; now rewrite H.
  - rewrite (rstrip_keeps _ _ Hp).
    cbn [search_branch]. rewrite (IH H). apply orb_true_r.
Qed.

Lemma tight_head_solid (br : branch) :
  branch_is_tight br = true -> head_solid br = true.
Proof.
  destruct br as [a|a b]; cbn [branch_is_tight head_solid].
  - apply tight_head.
  - intros H. apply andb_true_iff in H as [H _]. now apply tight_head.
Qed.

(** A pattern whose literals have plain ends still matches the sentence
    once the sentence is stripped. *)
Lemma search_strip (r : regex) (s : string) :
  regex_is_tight r = true ->
  search true r s = true -> search true r (strip s) = true.
Proof.
  unfold search, regex_is_tight. intros Hr H.
  apply existsb_exists in H as (br & Hin & H).
  apply existsb_exists. exists br. split; [exact Hin|].
  pose proof (proj1 (forallb_forall _ _) Hr br Hin) as Hbr.
  unfold strip. apply search_branch_rstrip; [exact Hbr|].
  apply search_branch_lstrip; [now apply tight_head_solid | exact H].
Qed.

Lemma In_firstn {A : Type} (n : nat) (l : list A) (x : A) :
  In x (firstn n l) -> In x l.
Proof.
  revert l. induction n as [|n IH]; intros l; [intros []|].
  destruct l as [|y l]; [intros []|]. simpl.
  intros [->|H]; [now left | right; now apply IH].
Qed.

(** X18. Every example of every rule of the table still matches the rule's
    pattern, letter case ignored: stripping a sentence never strips the
    match, and no example is empty. *)
Theorem examples_match (text : string) :
  Forall (fun rule =>
            Forall (fun example =>
                      search true (fst (fst rule)) example = true /\
                      nonempty example = true)
                   (find_example_clauses text (fst (fst rule))))
         risk_patterns.
Proof.
  assert (T : forallb (fun rule => regex_is_tight (fst (fst rule)))
                      risk_patterns = true) by reflexivity.
  apply Forall_forall. intros rule Hrule.
  pose proof (proj1 (forallb_forall _ _) T rule Hrule) as Ht.
  apply Forall_forall. intros example H.
  unfold find_example_clauses in H.
  rewrite collect_examples_firstn in H by (simpl; lia).
  apply In_firstn in H. cbn [app] in H.
  apply in_map_iff in H as (sentence & <- & H).
  apply filter_In in H as [_ H].
  pose proof (search_strip _ _ Ht H) as M. split; [exact M|].
  unfold search in M. apply existsb_exists in M as (br & Hin & M).
  apply has_plain_nonempty. eapply search_branch_plain; [|exact M].
  exact (proj1 (forallb_forall _ _) Ht br Hin).
Qed.

End ExamplesMatch.

(* ================================================================= *)
(** ** Headings and letter case *)

Module HeadingCase.

Import Classifier Segmenter ClassifierFacts.

Lemma is_space_lower_char (c : ascii) : is_space (lower_char c) = is_space c.
Proof. destruct c as [[] [] [] [] [] [] [] []]; reflexivity. Qed.

Lemma code_in_lower_char (lo hi : nat) (c : ascii) :
  128 <= lo -> code_in lo hi (lower_char c) = code_in lo hi c.
Proof.
  intros Hlo. unfold lower_char. destruct (is_upper_char c) eqn:U;
    [|reflexivity].
  assert (L : low c = true).
  { unfold is_upper_char, code_in in U. apply andb_true_iff in U as [_ U].
    apply Nat.leb_le in U. apply Nat.ltb_lt. lia. }
  rewrite (code_in_low lo hi c Hlo L).
  apply code_in_low; [exact Hlo|].
  unfold is_upper_char, code_in in U. apply andb_true_iff in U as [U1 U2].
  apply Nat.leb_le in U1, U2. unfold low. apply Nat.ltb_lt.
  rewrite nat_ascii_embedding by lia. lia.
Qed.

Lemma char_case_variant_space (c d : ascii) :
  char_case_variant c d -> is_space d = is_space c.
Proof.
  intros [->|[[_ ->]|[_ ->]]]; auto using is_space_lower_char.
Qed.

Lemma char_case_variant_code (lo hi : nat) (c d : ascii) :
  128 <= lo -> char_case_variant c d -> code_in lo hi d = code_in lo hi c.
Proof.
  intros Hlo [->|[[_ ->]|[_ ->]]];
    [reflexivity | now apply code_in_lower_char|].
  symmetry. now apply code_in_lower_char.
Qed.

Ltac same_codes H :=
  repeat match goal with
         | |- context [code_in ?lo ?hi ?x] =>
             match type of H with
             | char_case_variant ?y x =>
                 rewrite (char_case_variant_code lo hi y x ltac:(lia) H)
             end
         end.

Lemma is_space2_case (c c' d d' : ascii) :
  char_case_variant c c' -> char_case_variant d d' ->
  is_space2 c' d' = is_space2 c d.
Proof.
  intros Hc Hd. unfold is_space2.
  same_codes Hc. same_codes Hd. reflexivity.
Qed.

Lemma is_space3_case (c c' d d' e e' : ascii) :
  char_case_variant c c' -> char_case_variant d d' ->
  char_case_variant e e' ->
  is_space3 c' d' e' = is_space3 c d e.
Proof.
  intros Hc Hd He. unfold is_space3.
  same_codes Hc. same_codes Hd. same_codes He. reflexivity.
Qed.

(** Where the white space is depends on no letter. *)
Lemma space_width_case (s t : string) :
  case_variant s t -> space_width t = space_width s.
Proof.
  intros H. destruct H as [|c c' s t Hc H]; [reflexivity|].
  cbn [space_width]. rewrite (char_case_variant_space _ _ Hc).
  destruct H as [|d d' s t Hd H]; [reflexivity|].
  rewrite (is_space2_case _ _ _ _ Hc Hd).
  destruct H as [|e e' s t He H]; [reflexivity|].
  now rewrite (is_space3_case _ _ _ _ _ _ Hc Hd He).
Qed.

Lemma case_variant_nonempty (s t : string) :
  case_variant s t -> nonempty t = nonempty s.
Proof. now intros []. Qed.

(** The number of words depends on where the white space is, not on the
    letters. *)
Lemma split_ws_from_case (s t : string) :
  case_variant s t ->
  forall skip,
    List.length (split_ws_from skip t) = List.length (split_ws_from skip s).
Proof.
  induction 1 as [|c d s t Hc Hst IH]; intros skip; [reflexivity|].
  cbn [split_ws_from]. destruct skip as [|k]; [|apply IH].
  rewrite (space_width_case _ _ (cv_char _ _ _ _ Hc Hst)).
  destruct (space_width (String c s)); [|apply IH].
  rewrite (case_variant_nonempty _ _ Hst), (space_width_case _ _ Hst).
  specialize (IH 0).
  destruct (nonempty s && Nat.eqb (space_width s) 0).
  - destruct (split_ws_from 0 t), (split_ws_from 0 s);
      simpl in *; congruence.
  - cbn [List.length]. now rewrite IH.
Qed.

Lemma split_ws_case (s t : string) :
  case_variant s t ->
  List.length (split_ws t) = List.length (split_ws s).
Proof. intros H. now apply split_ws_from_case. Qed.

(** X19. Heading detection ignores the case of the letters A to Z: two
    lines that differ only by the case of these letters are both headings
    or both not. *)
Theorem is_heading_case (line line' : string) :
  case_variant line line' -> is_heading line' = is_heading line.
Proof.
  intros Hcv. unfold is_heading.
  now rewrite (case_variant_lower _ _ Hcv), (split_ws_case _ _ Hcv).
Qed.

Lemma is_heading_case_witness :
  is_heading "gOVERNING lAW" = is_heading "Governing Law".
Proof.
  apply (is_heading_case "Governing Law" "gOVERNING lAW").
  repeat (constructor; [unfold char_case_variant; vm_compute; tauto|]).
  constructor.
Defined.

End HeadingCase.

(* ================================================================= *)
(** ** The entry "Introduction" *)

Module IntroductionEntry.

Import Segmenter SegmenterFacts Lead.

Lemma last_body_absent (k : string) (segs : list (string * list string)) :
  ~ In k (map fst segs) -> last_body k segs = None.
Proof.
  induction segs as [|[k0 b] segs IH]; [reflexivity|].
  cbn [map fst In last_body]. intros H.
  rewrite IH by tauto.
  destruct (String.eqb_spec k0 k) as [->|_]; [tauto | reflexivity].
Qed.

Lemma last_body_app (k : string) (a b : list (string * list string)) :
  last_body k (a ++ b)
  = match last_body k b with
    | Some body => Some body
    | None => last_body k a
    end.
Proof.
  induction a as [|[k0 b0] a IH]; cbn [app last_body].
  - now destruct (last_body k b).
  - rewrite IH. now destruct (last_body k b).
Qed.

Lemma last_body_close (buf : list string) :
  last_body "Introduction" (close "Introduction" buf)
  = match buf with [] => None | l :: rest => Some (l :: rest) end.
Proof. now destruct buf. Qed.

(** No section opened by a heading is keyed "Introduction". *)
Lemma heading_sections_other (l : string) (ls : list string) :
  is_heading l = true ->
  last_body "Introduction" (segments l [] ls) = None.
Proof.
  intros Hl. apply last_body_absent. intros H.
  apply segments_keys in H as [H|H].
  - rewrite <- H in Hl. discriminate Hl.
  - apply filter_In in H as [_ H]. discriminate H.
Qed.

Lemma introduction_body (ls : list string) :
  forall buf,
    last_body "Introduction" (segments "Introduction" buf ls)
    = match (buf ++ lines_before_heading ls)%list with
      | [] => None
      | l :: rest => Some (l :: rest)
      end.
Proof.
  induction ls as [|l ls IH]; intros buf;
    cbn [segments lines_before_heading].
  - rewrite app_nil_r. apply last_body_close.
  - destruct (is_heading l) eqn:E.
    + rewrite last_body_app, (heading_sections_other l ls E), app_nil_r.
      apply last_body_close.
    + rewrite IH, <- List.app_assoc. reflexivity.
Qed.

(** X20. The entry "Introduction" holds exactly the lines that stand
    before the first heading: it is missing when the text starts with a
    heading or has no line that counts, and no later section touches it. *)
Theorem introduction_entry (text : string) :
  get "Introduction" (identify_key_sections text)
  = match lines_before_heading (visible_lines text) with
    | [] => None
    | l :: rest => Some (join nl (l :: rest))
    end.
Proof.
  rewrite identify_key_sections_segments, get_fold_store.
  unfold sections_of. rewrite introduction_body. cbn [app].
  now destruct (lines_before_heading (visible_lines text)).
Qed.

End IntroductionEntry.
